(** * Memory cached datastore with asynchronous file backing

    A shallow embedding of [datastore/memcache_file.go]: the
    [MemcacheFileDataStore] wrapper, its writer loop and the file backed
    directory-metadata resolver, together with the collaborators the
    wrapper calls (path specs, the two LRU caches, the memcache core and
    the file based backend). *)

From stdpp Require Import gmap strings list fin_maps.
From Stdlib Require Import ZArith.
From Stdlib.Strings Require Import Byte.
From Equations Require Import Equations.

Local Open Scope Z_scope.

(** ** Errors and results *)

(** Go [error] values that the datastore distinguishes.  [ErrNotExist] is
    [os.ErrNotExist]; [ErrNoDirectoryMetadata] is the package level
    [errorNoDirectoryMetadata]; codec and I/O failures carry a message. *)
Inductive error : Type :=
| ErrNotExist
| ErrNoDirectoryMetadata
| ErrCodec (msg : string)
| ErrIO (msg : string).

#[global] Instance error_eq_dec : EqDecision error.
Proof. solve_decision. Defined.

(** A Go [(value, err)] pair with exactly one side meaningful. *)
Inductive result (A : Type) : Type :=
| Ok (a : A)
| Err (e : error).
Arguments Ok {A} a.
Arguments Err {A} e.

(** [os.IsNotExist(errors.Cause(err))] on an optional error. *)
Definition IsNotExist (err : option error) : bool :=
  match err with
  | Some ErrNotExist => true
  | _ => false
  end.

Definition result_err {A} (r : result A) : option error :=
  match r with
  | Ok _ => None
  | Err e => Some e
  end.

Abbreviation bytes := (list Byte.byte).

#[global] Instance byte_eq_dec : EqDecision Byte.byte := Byte.byte_eq_dec.

(** ** Paths *)

Module api.

Inductive PathType : Type :=
| PATH_TYPE_DATASTORE_PROTO
| PATH_TYPE_DATASTORE_JSON.

#[global] Instance PathType_eq_dec : EqDecision PathType.
Proof. solve_decision. Defined.

(** Modelled from the spec: the [api.DSPathSpec] type is declared
    outside this file.  A path is a sequence of name components paired
    with a payload-encoding tag; equality is by (components, tag). *)
Record DSPathSpec : Type := mkPath {
  Components : list string;
  path_type : PathType;
}.

#[global] Instance DSPathSpec_eq_dec : EqDecision DSPathSpec.
Proof. solve_decision. Defined.

#[global] Instance PathType_countable : Countable PathType.
Proof.
  refine (inj_countable'
            (fun t => match t with
                      | PATH_TYPE_DATASTORE_PROTO => false
                      | PATH_TYPE_DATASTORE_JSON => true
                      end)
            (fun b : bool => if b then PATH_TYPE_DATASTORE_JSON
                             else PATH_TYPE_DATASTORE_PROTO) _).
  intros []; reflexivity.
Defined.

#[global] Instance DSPathSpec_countable : Countable DSPathSpec.
Proof.
  refine (inj_countable' (fun p => (Components p, path_type p))
                         (fun q => mkPath q.1 q.2) _).
  intros []; reflexivity.
Defined.

(** Modelled from the spec: [Dir()] is the parent view, the sequence
    with its last component removed, empty when at the root. *)
Definition Dir (urn : DSPathSpec) : DSPathSpec :=
  mkPath (removelast (Components urn)) (path_type urn).

(** Modelled from the spec: [AsDatastoreDirectory] is the directory key,
    the sequence as a canonical directory path string.  Every component
    is written after a slash; the root is the empty string. *)
Definition AsDatastoreDirectory (urn : DSPathSpec) : string :=
  foldr (fun c acc => String.append "/" (String.append c acc))
        EmptyString (Components urn).

End api.
Import api.

(** ** Bounded LRU *)

(** Modelled from the spec: the generic bounded LRU cache is declared
    outside this file.  Entries are kept most recently used first; [Get]
    and [Set] move the entry to the front and [Set] evicts from the back
    once the entry count exceeds the cap.  Idle-time expiry depends on the
    wall clock and is not part of this model. *)
Module LRU.
Section lru.
Context {K V : Type} `{EqDecision K}.

Record t : Type := mk {
items : list (K * V);
max_size : Z;
}.

Fixpoint assoc (k : K) (l : list (K * V)) : option V :=
match l with
| [] => None
| (k', v) :: l' => if decide (k' = k) then Some v else assoc k l'
end.

Fixpoint drop_key (k : K) (l : list (K * V)) : list (K * V) :=
match l with
| [] => []
| (k', v) :: l' =>
    if decide (k' = k) then drop_key k l' else (k', v) :: drop_key k l'
end.

Fixpoint alter_key (f : V -> V) (k : K) (l : list (K * V)) : list (K * V) :=
match l with
| [] => []
| (k', v) :: l' =>
    if decide (k' = k) then (k', f v) :: alter_key f k l'
    else (k', v) :: alter_key f k l'
end.

Definition New (size : Z) : t := mk [] size.

(** Lookup that does not touch the recency order; a specification
  device used to state what a cache holds. *)
Definition Peek (k : K) (c : t) : option V := assoc k (items c).

Definition Get (k : K) (c : t) : option V * t :=
match assoc k (items c) with
| None => (None, c)
| Some v => (Some v, mk ((k, v) :: drop_key k (items c)) (max_size c))
end.

Definition Set_ (k : K) (v : V) (c : t) : t :=
mk (take (Z.to_nat (max_size c)) ((k, v) :: drop_key k (items c)))
   (max_size c).

Definition Remove (k : K) (c : t) : t :=
mk (drop_key k (items c)) (max_size c).

(** In-place mutation of a cached object through the pointer that
  [Get] handed out: the entry keeps its position. *)
Definition Update (f : V -> V) (k : K) (c : t) : t :=
mk (alter_key f k (items c)) (max_size c).

Definition Len (c : t) : nat := length (items c).

End lru.
Arguments t : clear implicits.
End LRU.

(** ** Data cache and directory cache *)

(** Modelled from the spec: [DataLRUCache] is declared outside this file.
    A bounded LRU from path to payload bytes; a payload above the
    per-item cap passes through without being cached. *)
Record DataLRUCache : Type := mkDataLRUCache {
  data_lru : LRU.t DSPathSpec bytes;
  data_max_item_size : Z;
}.

(** Modelled from the spec: the constructor takes the entry cap and the
    per-item byte cap. *)
Definition NewDataLRUCache (data_max_size max_item_size : Z) : DataLRUCache :=
  mkDataLRUCache (LRU.New data_max_size) max_item_size.

(** Modelled from the spec: [Get] of the data cache. *)
Definition DataLRUCache_Get (urn : DSPathSpec) (c : DataLRUCache)
  : option bytes * DataLRUCache :=
  let '(v, l) := LRU.Get urn (data_lru c) in
  (v, mkDataLRUCache l (data_max_item_size c)).

(** Modelled from the spec: [Set] of the data cache; an oversize payload
    is silently not cached. *)
Definition DataLRUCache_Set (urn : DSPathSpec) (data : bytes) (c : DataLRUCache)
  : DataLRUCache :=
  if Z.of_nat (length data) >? data_max_item_size c then c
  else mkDataLRUCache (LRU.Set_ urn data (data_lru c)) (data_max_item_size c).

(** Modelled from the spec: [Remove] of the data cache. *)
Definition DataLRUCache_Remove (urn : DSPathSpec) (c : DataLRUCache)
  : DataLRUCache :=
  mkDataLRUCache (LRU.Remove urn (data_lru c)) (data_max_item_size c).

(** Modelled from the spec: [DirectoryMetadata] is declared outside this
    file.  A set of direct children plus the [full] flag. *)
Record DirectoryMetadata : Type := mkDirectoryMetadata {
  children : list DSPathSpec;
  full : bool;
}.

(** Modelled from the spec: [IsFull] reads the flag. *)
Definition IsFull (md : DirectoryMetadata) : bool := full md.

(** Modelled from the spec: adding a child to the set; the flag stays. *)
Definition md_Set (child : DSPathSpec) (md : DirectoryMetadata) : DirectoryMetadata :=
  if decide (child ∈ children md) then md
  else mkDirectoryMetadata (child :: children md) (full md).

(** Modelled from the spec: removing a child from the set. *)
Definition md_Remove (child : DSPathSpec) (md : DirectoryMetadata) : DirectoryMetadata :=
  mkDirectoryMetadata (filter (fun c => c ≠ child) (children md)) (full md).

(** Modelled from the spec: [DirectoryLRUCache] is declared outside this
    file.  A bounded LRU from directory key to [DirectoryMetadata]; the
    spec gives it one size, its maximum number of entries. *)
Record DirectoryLRUCache : Type := mkDirectoryLRUCache {
  dir_lru : LRU.t string DirectoryMetadata;
}.

(** Modelled from the spec: the constructor of the directory cache.  It
    is handed the data cache's entry count first and the directory size
    (1,000 unless configured) last.  The spec names the latter as the
    directory cache's maximum number of entries and gives the former no
    role in the directory cache. *)
Definition NewDirectoryLRUCache (data_max_size dir_max_size : Z)
  : DirectoryLRUCache :=
  mkDirectoryLRUCache (LRU.New dir_max_size).

(** Modelled from the spec: [Get] of the directory cache. *)
Definition DirectoryLRUCache_Get (path : string) (c : DirectoryLRUCache)
  : option DirectoryMetadata * DirectoryLRUCache :=
  let '(v, l) := LRU.Get path (dir_lru c) in
  (v, mkDirectoryLRUCache l).

(** Modelled from the spec: [Remove] of the directory cache. *)
Definition DirectoryLRUCache_Remove (path : string) (c : DirectoryLRUCache)
  : DirectoryLRUCache :=
  mkDirectoryLRUCache (LRU.Remove path (dir_lru c)).

(** Modelled from the spec: the directory cache owns its metadata
    objects, which are mutated in place. *)
Definition DirectoryLRUCache_Update (f : DirectoryMetadata -> DirectoryMetadata)
    (path : string) (c : DirectoryLRUCache) : DirectoryLRUCache :=
  mkDirectoryLRUCache (LRU.Update f path (dir_lru c)).

(** What the directory cache holds under a key, recency aside. *)
Definition dir_peek (path : string) (c : DirectoryLRUCache)
  : option DirectoryMetadata :=
  LRU.Peek path (dir_lru c).

Definition data_peek (urn : DSPathSpec) (c : DataLRUCache) : option bytes :=
  LRU.Peek urn (data_lru c).

(** ** Payload codecs *)

(** The structured messages the store round-trips.  [protojson.Marshal]
    and [proto.Marshal] belong to the protobuf library; the store only
    relies on each of them returning bytes or an error. *)
Class ProtoMessage (M : Type) : Type := {
  protojson_Marshal : M -> result bytes;
  proto_Marshal : M -> result bytes;
  protojson_Unmarshal : bytes -> result M;
  proto_Unmarshal : bytes -> result M;
}.

(** ** Configuration *)

Module config_proto.

(** Modelled from the spec: the generated [config_proto] types are
    declared outside this file.  These are the datastore options the
    file reads; a field left unset reads as zero.  Each field holds a
    value of its Go type: the expiry is assigned to a [uint64], the
    others are converted with [int(...)] and fit an [int]. *)
Record DatastoreConfig : Type := mkDatastoreConfig {
  MemcacheExpirationSec : Z;
  MemcacheWriteMutationBuffer : Z;
  MemcacheWriteMutationWriters : Z;
  MemcacheDatastoreMaxSize : Z;
  MemcacheDatastoreMaxItemSize : Z;
  MemcacheDatastoreMaxDirSize : Z;
}.

(** [Datastore] is a pointer in the generated code; [None] is [nil]. *)
Record Config : Type := mkConfig {
  Datastore : option DatastoreConfig;
}.

End config_proto.
Import config_proto.

(** ** File based backend *)

(** Whether the operating system lets a filesystem call go through; the
    environment picks it for every call. *)
Inductive io_outcome : Type :=
| IoOk
| IoFail (e : error).

(** Modelled from the spec: [writeContentToFile] of the file based
    backend creates or replaces the file at the path. *)
Definition writeContentToFile (io : io_outcome) (urn : DSPathSpec)
    (data : bytes) (disk : gmap DSPathSpec bytes)
  : gmap DSPathSpec bytes * option error :=
  match io with
  | IoOk => (<[urn := data]> disk, None)
  | IoFail e => (disk, Some e)
  end.

(** Modelled from the spec: [readContentFromFile] returns the bytes or
    an error that tells a missing file from other I/O failures. *)
Definition readContentFromFile (io : io_outcome) (urn : DSPathSpec)
    (must_exist : bool) (disk : gmap DSPathSpec bytes) : result bytes :=
  match io with
  | IoFail e => Err e
  | IoOk =>
      match disk !! urn with
      | Some data => Ok data
      | None => if must_exist then Err ErrNotExist else Ok []
      end
  end.

(** Modelled from the spec: [file_based_imp.DeleteSubject] removes the
    file; deleting a missing file is not an error. *)
Definition file_based_DeleteSubject (io : io_outcome) (urn : DSPathSpec)
    (disk : gmap DSPathSpec bytes) : gmap DSPathSpec bytes * option error :=
  match io with
  | IoOk => (delete urn disk, None)
  | IoFail e => (disk, Some e)
  end.

(** ** Memcache core *)

(** The injected directory-metadata resolver.  The Go resolver returns a
    pointer into the directory cache; here it returns the object, and the
    caller updates the entry under the key of the directory it asked
    for. *)
Definition dir_resolver : Type :=
  DirectoryLRUCache -> DSPathSpec -> DirectoryLRUCache * result DirectoryMetadata.

(** The [MemcacheDatastore] struct as this file builds it, together with
    what [SetTimeout] and [SetCheckExpirationCallback] leave in it.
    Modelled from the spec: both setters are declared outside this file;
    they store the expiry window, a [time.Duration] in nanoseconds, and
    the predicate that exempts keys from expiry. *)
Record MemcacheDatastore : Type := mkMemcacheDatastore {
  data_cache : DataLRUCache;
  dir_cache : DirectoryLRUCache;
  get_dir_metadata : dir_resolver;
  expiry_timeout : Z;
  check_expiration : option (string -> bool);
}.

Definition with_data_cache (d : DataLRUCache) (c : MemcacheDatastore)
  : MemcacheDatastore :=
  mkMemcacheDatastore d (dir_cache c) (get_dir_metadata c)
                      (expiry_timeout c) (check_expiration c).

Definition with_dir_cache (d : DirectoryLRUCache) (c : MemcacheDatastore)
  : MemcacheDatastore :=
  mkMemcacheDatastore (data_cache c) d (get_dir_metadata c)
                      (expiry_timeout c) (check_expiration c).

(** Modelled from the spec: [MemcacheDatastore.SetTimeout]. *)
Definition SetTimeout (duration : Z) (c : MemcacheDatastore)
  : MemcacheDatastore :=
  mkMemcacheDatastore (data_cache c) (dir_cache c) (get_dir_metadata c)
                      duration (check_expiration c).

(** Modelled from the spec: [MemcacheDatastore.SetCheckExpirationCallback]. *)
Definition SetCheckExpirationCallback (callback : string -> bool)
    (c : MemcacheDatastore) : MemcacheDatastore :=
  mkMemcacheDatastore (data_cache c) (dir_cache c) (get_dir_metadata c)
                      (expiry_timeout c) (Some callback).

(** Modelled from the spec: [MemcacheDatastore.GetBuffer] returns the
    cached payload, or not-found when the path is absent from the data
    cache. *)
Definition cache_GetBuffer (urn : DSPathSpec) (c : MemcacheDatastore)
  : MemcacheDatastore * result bytes :=
  let '(v, d) := DataLRUCache_Get urn (data_cache c) in
  match v with
  | Some data => (with_data_cache d c, Ok data)
  | None => (with_data_cache d c, Err ErrNotExist)
  end.

(** Modelled from the spec: [MemcacheDatastore.SetData] stores the bytes
    in the data cache and maintains the parent directory's metadata
    through the resolver: the child is added when metadata comes back,
    nothing is created when it does not. *)
Definition cache_SetData (urn : DSPathSpec) (data : bytes)
    (c : MemcacheDatastore) : MemcacheDatastore * option error :=
  let '(dirs, md) := get_dir_metadata c (dir_cache c) (Dir urn) in
  let dirs' :=
    match md with
    | Ok _ =>
        DirectoryLRUCache_Update (md_Set urn) (AsDatastoreDirectory (Dir urn)) dirs
    | Err _ => dirs
    end in
  (mkMemcacheDatastore (DataLRUCache_Set urn data (data_cache c)) dirs'
                       (get_dir_metadata c) (expiry_timeout c)
                       (check_expiration c), None).

(** Modelled from the spec: [MemcacheDatastore.DeleteSubject] removes the
    path from the data cache and removes the child from the parent
    directory's metadata if that metadata is present. *)
Definition cache_DeleteSubject (urn : DSPathSpec) (c : MemcacheDatastore)
  : MemcacheDatastore * option error :=
  let '(md, dirs) :=
    DirectoryLRUCache_Get (AsDatastoreDirectory (Dir urn)) (dir_cache c) in
  let dirs' :=
    match md with
    | Some _ =>
        DirectoryLRUCache_Update (md_Remove urn)
                                 (AsDatastoreDirectory (Dir urn)) dirs
    | None => dirs
    end in
  (mkMemcacheDatastore (DataLRUCache_Remove urn (data_cache c)) dirs'
                       (get_dir_metadata c) (expiry_timeout c)
                       (check_expiration c), None).

Section codec.
Context {M : Type} `{ProtoMessage M}.

(** The encoder selected by the path's tag, as both write paths do. *)
Definition Marshal (urn : DSPathSpec) (message : M) : result bytes :=
  if decide (path_type urn = PATH_TYPE_DATASTORE_JSON)
  then protojson_Marshal message
  else proto_Marshal message.

Definition Unmarshal (urn : DSPathSpec) (data : bytes) : result M :=
  if decide (path_type urn = PATH_TYPE_DATASTORE_JSON)
  then protojson_Unmarshal data
  else proto_Unmarshal data.

(** Modelled from the spec: [MemcacheDatastore.GetSubject] decodes the
    cached payload, failing with not-found when the path is absent from
    the data cache. *)
Definition cache_GetSubject (urn : DSPathSpec) (c : MemcacheDatastore)
  : MemcacheDatastore * result M :=
  let '(c', r) := cache_GetBuffer urn c in
  match r with
  | Ok data => (c', Unmarshal urn data)
  | Err e => (c', Err e)
  end.

(** Modelled from the spec: [MemcacheDatastore.SetSubject] encodes the
    message per the path's tag, returning encoding errors verbatim, and
    stores the bytes as [SetData] does. *)
Definition cache_SetSubject (urn : DSPathSpec) (message : M)
    (c : MemcacheDatastore) : MemcacheDatastore * option error :=
  match Marshal urn message with
  | Err e => (c, Some e)
  | Ok data => cache_SetData urn data c
  end.

End codec.

(** ** Write-behind layer: state *)

Inductive MutationOp : Type :=
| MUTATION_OP_SET_SUBJECT
| MUTATION_OP_DEL_SUBJECT.

#[global] Instance MutationOp_eq_dec : EqDecision MutationOp.
Proof. solve_decision. Defined.

(** A mutation to be written to the backing data store.  [wg] names the
    [sync.WaitGroup] the submitting call allocated; [completion] names
    the callback to run once committed to disk, if any. *)
Record Mutation : Type := mkMutation {
  op : MutationOp;
  urn : DSPathSpec;
  wg : nat;
  data : bytes;
  completion : option nat;
}.

#[global] Instance Mutation_eq_dec : EqDecision Mutation.
Proof. solve_decision. Defined.

(** The Prometheus counters and the idle-writers gauge of the file. *)
Record Metrics : Type := mkMetrics {
  metricDirLRUHit : Z;
  metricDirLRUMiss : Z;
  metricDataLRUHit : Z;
  metricDataLRUMiss : Z;
  metricIdleWriters : Z;
}.

(** The [MemcacheFileDataStore] struct.  [writer] is the content of the
    buffered channel, oldest first, and [writer_cap] the capacity it was
    made with; [ctx_done] tells whether [self.ctx] has been cancelled.
    [writer] and [ctx] are set by [StartWriter], and the calls below are
    modelled for a store on which it has run. *)
Record MemcacheFileDataStore : Type := mkMemcacheFileDataStore {
  cache : MemcacheDatastore;
  writer : list Mutation;
  writer_cap : Z;
  ctx_done : bool;
}.

(** Everything a call or a writer can touch: the store, the files of the
    backend, the metrics, the wait groups allocated so far (counter by
    identity), the completion callbacks run so far (latest first) and
    the number of writer goroutines alive. *)
Record World : Type := mkWorld {
  self : MemcacheFileDataStore;
  disk : gmap DSPathSpec bytes;
  metrics : Metrics;
  waitgroups : gmap nat Z;
  next_wg : nat;
  callbacks_run : list nat;
  workers : nat;
}.

Definition with_self (s : MemcacheFileDataStore) (w : World) : World :=
  mkWorld s (disk w) (metrics w) (waitgroups w) (next_wg w)
          (callbacks_run w) (workers w).

Definition with_cache (c : MemcacheDatastore) (w : World) : World :=
  with_self (mkMemcacheFileDataStore c (writer (self w)) (writer_cap (self w))
                                     (ctx_done (self w))) w.

Definition with_writer (q : list Mutation) (w : World) : World :=
  with_self (mkMemcacheFileDataStore (cache (self w)) q (writer_cap (self w))
                                     (ctx_done (self w))) w.

Definition with_ctx_done (b : bool) (w : World) : World :=
  with_self (mkMemcacheFileDataStore (cache (self w)) (writer (self w))
                                     (writer_cap (self w)) b) w.

Definition with_disk (d : gmap DSPathSpec bytes) (w : World) : World :=
  mkWorld (self w) d (metrics w) (waitgroups w) (next_wg w)
          (callbacks_run w) (workers w).

Definition with_metrics (m : Metrics) (w : World) : World :=
  mkWorld (self w) (disk w) m (waitgroups w) (next_wg w)
          (callbacks_run w) (workers w).

Definition with_workers (n : nat) (w : World) : World :=
  mkWorld (self w) (disk w) (metrics w) (waitgroups w) (next_wg w)
          (callbacks_run w) n.

Definition metricDataLRUHit_Inc (w : World) : World :=
  let m := metrics w in
  with_metrics (mkMetrics (metricDirLRUHit m) (metricDirLRUMiss m)
                          (metricDataLRUHit m + 1) (metricDataLRUMiss m)
                          (metricIdleWriters m)) w.

Definition metricDataLRUMiss_Inc (w : World) : World :=
  let m := metrics w in
  with_metrics (mkMetrics (metricDirLRUHit m) (metricDirLRUMiss m)
                          (metricDataLRUHit m) (metricDataLRUMiss m + 1)
                          (metricIdleWriters m)) w.

Definition metricIdleWriters_Add (d : Z) (w : World) : World :=
  let m := metrics w in
  with_metrics (mkMetrics (metricDirLRUHit m) (metricDirLRUMiss m)
                          (metricDataLRUHit m) (metricDataLRUMiss m)
                          (metricIdleWriters m + d)) w.

(** [var wg sync.WaitGroup; wg.Add(1)]: a fresh wait group whose counter
    is one. *)
Definition wg_new (w : World) : World * nat :=
  (mkWorld (self w) (disk w) (metrics w)
           (<[next_wg w := 1]> (waitgroups w)) (S (next_wg w))
           (callbacks_run w) (workers w),
   next_wg w).

Definition counter_of (groups : gmap nat Z) (g : nat) : Z :=
  default 0 (groups !! g).

Definition wg_counter (g : nat) (w : World) : Z :=
  counter_of (waitgroups w) g.

(** [wg.Done()]. *)
Definition wg_Done (g : nat) (w : World) : World :=
  mkWorld (self w) (disk w) (metrics w)
          (<[g := wg_counter g w - 1]> (waitgroups w)) (next_wg w)
          (callbacks_run w) (workers w).

(** Calling a completion function. *)
Definition run_completion (f : nat) (w : World) : World :=
  mkWorld (self w) (disk w) (metrics w) (waitgroups w) (next_wg w)
          (f :: callbacks_run w) (workers w).

(** ** Directory cache invalidation and the file backed resolver *)

(** One turn of the loop that [invalidateDirCache] and the resolver
    share: look the directory up and drop its entry when it is present
    and not full. *)
Definition invalidate_entry (urn : DSPathSpec) (dirs : DirectoryLRUCache)
  : DirectoryLRUCache :=
  let path := AsDatastoreDirectory urn in
  let '(md, dirs1) := DirectoryLRUCache_Get path dirs in
  match md with
  | Some md =>
      if negb (IsFull md)
      then DirectoryLRUCache_Remove (AsDatastoreDirectory urn) dirs1
      else dirs1
  | None => dirs1
  end.

(** [for len(urn.Components()) > 0 { ...; urn = urn.Dir() }]. *)
Equations? invalidate_walk (urn : DSPathSpec) (dirs : DirectoryLRUCache)
  : DirectoryLRUCache by wf (length (Components urn)) lt :=
invalidate_walk urn dirs with decide (0 < length (Components urn))%nat := {
  | left Hlen => invalidate_walk (Dir urn) (invalidate_entry urn dirs)
  | right _ => dirs }.
Proof.
  unfold Dir; simpl.
  rewrite removelast_firstn_len, length_firstn. lia.
Qed.

(** [MemcacheFileDataStore.invalidateDirCache]. *)
Definition invalidateDirCache (urn : DSPathSpec) (w : World) : World :=
  with_cache (with_dir_cache (invalidate_walk urn (dir_cache (cache (self w))))
                             (cache (self w))) w.

(** [get_file_dir_metadata].  The fast path hands back whatever the
    cache holds for the directory asked for.  Otherwise no metadata is
    made up; the walk over the parents is the loop of
    [invalidateDirCache], started at [urn.Dir()]. *)
Definition get_file_dir_metadata : dir_resolver :=
  fun dir_cache urn =>
    let path := AsDatastoreDirectory urn in
    let '(md, dirs) := DirectoryLRUCache_Get path dir_cache in
    match md with
    | Some md => (dirs, Ok md)
    | None => (invalidate_walk (Dir urn) dirs, Err ErrNoDirectoryMetadata)
    end.

(** ** Construction and start *)

(** [NewMemcacheFileDataStore].  The first size is read behind a nil
    check of [config_obj.Datastore]; the other two dereference the
    pointer directly, so a nil section panics ([None]). *)
Definition NewMemcacheFileDataStore (config_obj : Config)
  : option MemcacheFileDataStore :=
  let data_max_size :=
    match Datastore config_obj with
    | Some ds =>
        if MemcacheDatastoreMaxSize ds >? 0
        then MemcacheDatastoreMaxSize ds else 10000
    | None => 10000
    end in
  match Datastore config_obj with
  | None => None
  | Some ds =>
      let data_max_item_size :=
        if MemcacheDatastoreMaxItemSize ds >? 0
        then MemcacheDatastoreMaxItemSize ds else 64 * 1024 in
      let dir_max_item_size :=
        if MemcacheDatastoreMaxDirSize ds >? 0
        then MemcacheDatastoreMaxDirSize ds else 1000 in
      Some (mkMemcacheFileDataStore
              (mkMemcacheDatastore
                 (NewDataLRUCache data_max_size data_max_item_size)
                 (NewDirectoryLRUCache data_max_size dir_max_item_size)
                 get_file_dir_metadata 0 None)
              [] 0 false)
  end.

(** [ExpirationPolicy]: do not expire ping. *)
Definition ExpirationPolicy (key : string) : bool :=
  negb (bool_decide (String.substring
                       (String.length key - String.length "ping.db")
                       (String.length "ping.db") key = "ping.db"
                     ∧ (String.length "ping.db" <= String.length key)%nat)).

(** A value brought into the range of [int64], as Go's conversions and
    its signed arithmetic do. *)
Definition int64_wrap (z : Z) : Z := (z + 2 ^ 63) mod 2 ^ 64 - 2 ^ 63.

(** [time.Second], in the nanoseconds that [time.Duration] counts. *)
Definition time_Second : Z := 1000000000.

(** [time.Duration(timeout) * time.Second] for a [uint64] number of
    seconds: the conversion and the product both wrap around. *)
Definition Duration_of_seconds (timeout : Z) : Z :=
  int64_wrap (int64_wrap timeout * time_Second).

(** The largest capacity that [make(chan *Mutation, n)] accepts.  The
    Go runtime panics ("makechan: size out of range") when the buffer of
    [n] pointers of 8 bytes does not fit under its allocation limit of
    [2^48] bytes less the 96 bytes of the channel header, as on the
    64-bit platforms the server is built for. *)
Definition makechan_max : Z := 2 ^ 45 - 12.

Definition makechan_accepts (size : Z) : bool :=
  (0 <=? size) && (size <=? makechan_max).

(** [StartWriter]: the defaults, the expiry settings of the cache, the
    channel and the writers.  [done] tells whether the context handed in
    is already cancelled.  [None] is the panic of [make] on a capacity
    it does not accept; memory is assumed to be there for a capacity it
    accepts. *)
Definition StartWriter (done : bool) (config_obj : Config) (w : World)
  : option World :=
  let '(timeout, buffer_size, writers) :=
    match Datastore config_obj with
    | Some ds => (MemcacheExpirationSec ds, MemcacheWriteMutationBuffer ds,
                  MemcacheWriteMutationWriters ds)
    | None => (0, 0, 0)
    end in
  let timeout := if timeout =? 0 then 600 else timeout in
  let c := SetTimeout (Duration_of_seconds timeout) (cache (self w)) in
  let c := SetCheckExpirationCallback ExpirationPolicy c in
  let buffer_size := if buffer_size <=? 0 then 1000 else buffer_size in
  if makechan_accepts buffer_size then
    let writers := if writers =? 0 then 100 else writers in
    let started := mkMemcacheFileDataStore c [] buffer_size done in
    Some (metricIdleWriters_Add (Z.of_nat (Z.to_nat writers))
            (mkWorld started (disk w) (metrics w) (waitgroups w) (next_wg w)
                     (callbacks_run w) (workers w + Z.to_nat writers)))
  else None.

(** The world right after construction and start, over the files that
    are already on disk. *)
Definition boot (config_obj : Config) (files : gmap DSPathSpec bytes)
  : option World :=
  match NewMemcacheFileDataStore config_obj with
  | None => None
  | Some s =>
      StartWriter false config_obj
        (mkWorld s files (mkMetrics 0 0 0 0 0) ∅ 0 [] 0)
  end.

(** ** Writer loop *)

(** The body of the [case mutation, ok := <-self.writer] branch, from
    [metricIdleWriters.Dec()] to [mutation.wg.Done()].  The error that
    the backend returns is dropped, as in the source. *)
Definition process_mutation (io : io_outcome) (mutation : Mutation)
    (w : World) : World :=
  let w := metricIdleWriters_Add (-1) w in
  let w :=
    match op mutation with
    | MUTATION_OP_SET_SUBJECT =>
        let '(d, _) :=
          writeContentToFile io (urn mutation) (data mutation) (disk w) in
        let w := with_disk d w in
        let w := invalidateDirCache (urn mutation) w in
        match completion mutation with
        | Some f => run_completion f w
        | None => w
        end
    | MUTATION_OP_DEL_SUBJECT =>
        let '(d, _) := file_based_DeleteSubject io (urn mutation) (disk w) in
        let w := with_disk d w in
        invalidateDirCache (Dir (urn mutation)) w
    end in
  let w := metricIdleWriters_Add 1 w in
  wg_Done (wg mutation) w.

(** A writer receives the oldest mutation and processes it. *)
Definition writer_turn (io : io_outcome) (w : World) : option (Mutation * World) :=
  match writer (self w) with
  | [] => None
  | mutation :: rest =>
      Some (mutation, process_mutation io mutation (with_writer rest w))
  end.

(** ** Calls that may block *)

(** What a submitting call does once its [select] is over. *)
Inductive Tail : Type :=
| TailReturn (err : option error)
| TailWait (err : option error)
| TailPanic.

(** Where a submitting call stands: in its [select] with the mutation it
    built, in [wg.Wait()], returned, or stopped by a nil dereference. *)
Inductive Thread : Type :=
| AtSelect (mutation : Mutation) (on_done on_sent : Tail)
| AtWait (mutation : Mutation) (err : option error)
| Returned (err : option error)
| Panicked.

Definition resume (mutation : Mutation) (k : Tail) : Thread :=
  match k with
  | TailReturn err => Returned err
  | TailWait err => AtWait mutation err
  | TailPanic => Panicked
  end.

(** [if config_obj.Datastore.MemcacheWriteMutationBuffer < 0 { wg.Wait() };
    return err]. *)
Definition wait_if_negative_buffer (config_obj : Config) (err : option error)
  : Tail :=
  match Datastore config_obj with
  | None => TailPanic
  | Some ds =>
      if MemcacheWriteMutationBuffer ds <? 0 then TailWait err
      else TailReturn err
  end.

(** The [case <-self.ctx.Done()] branch of a [select]. *)
Definition select_done (w : World) (t : Thread) : option (World * Thread) :=
  match t with
  | AtSelect mutation on_done _ =>
      if ctx_done (self w) then Some (w, resume mutation on_done) else None
  | _ => None
  end.

(** The [case self.writer <- mutation] branch: ready while the channel
    has room. *)
Definition select_send (w : World) (t : Thread) : option (World * Thread) :=
  match t with
  | AtSelect mutation _ on_sent =>
      if Z.of_nat (length (writer (self w))) <? writer_cap (self w)
      then Some (with_writer (writer (self w) ++ [mutation]) w,
                 resume mutation on_sent)
      else None
  | _ => None
  end.

(** [wg.Wait()] returns once the counter is zero. *)
Definition wait_return (w : World) (t : Thread) : option (World * Thread) :=
  match t with
  | AtWait mutation err =>
      if decide (wg_counter (wg mutation) w = 0) then Some (w, Returned err)
      else None
  | _ => None
  end.

(** [DeleteSubject]: both branches of the [select] fall through to the
    buffer check. *)
Definition DeleteSubject (config_obj : Config) (urn : DSPathSpec) (w : World)
  : World * Thread :=
  let '(c, err) := cache_DeleteSubject urn (cache (self w)) in
  let w := with_cache c w in
  let '(w, wg) := wg_new w in
  (w, AtSelect (mkMutation MUTATION_OP_DEL_SUBJECT urn wg [] None)
               (wait_if_negative_buffer config_obj err)
               (wait_if_negative_buffer config_obj err)).

(** [SetBuffer]. *)
Definition SetBuffer (config_obj : Config) (urn : DSPathSpec) (data : bytes)
    (completion : option nat) (w : World) : World * Thread :=
  let '(c, err) := cache_SetData urn data (cache (self w)) in
  let w := with_cache c w in
  match err with
  | Some e => (w, Returned (Some e))
  | None =>
      let '(w, wg) := wg_new w in
      (w, AtSelect (mkMutation MUTATION_OP_SET_SUBJECT urn wg data completion)
                   (TailReturn None)
                   (wait_if_negative_buffer config_obj None))
  end.

(** [GetBuffer]. *)
Definition GetBuffer (io : io_outcome) (urn : DSPathSpec) (w : World)
  : World * result bytes :=
  let '(c, r) := cache_GetBuffer urn (cache (self w)) in
  let w := with_cache c w in
  match r with
  | Ok bulk_data => (metricDataLRUHit_Inc w, Ok bulk_data)
  | Err _ =>
      match readContentFromFile io urn true (disk w) with
      | Err e => (w, Err e)
      | Ok bulk_data =>
          let w := metricDataLRUMiss_Inc w in
          let '(c, _) := cache_SetData urn bulk_data (cache (self w)) in
          (with_cache c w, Ok bulk_data)
      end
  end.

Section calls.
Context {M : Type} `{ProtoMessage M}.

(** [GetSubject]. *)
Definition GetSubject (io : io_outcome) (urn : DSPathSpec) (w : World)
  : World * result M :=
  let '(c, r) := cache_GetSubject urn (cache (self w)) in
  let w := with_cache c w in
  if IsNotExist (result_err r) then
    match readContentFromFile io urn true (disk w) with
    | Err e => (w, Err e)
    | Ok serialized_content =>
        let w := metricDataLRUMiss_Inc w in
        let '(c, _) := cache_SetData urn serialized_content (cache (self w)) in
        let w := with_cache c w in
        let '(c, r) := cache_GetSubject urn (cache (self w)) in
        (with_cache c w, r)
    end
  else (metricDataLRUHit_Inc w, r).

(** [SetSubjectWithCompletion]. *)
Definition SetSubjectWithCompletion (config_obj : Config) (urn : DSPathSpec)
    (message : M) (completion : option nat) (w : World) : World * Thread :=
  match Marshal urn message with
  | Err e => (w, Returned (Some e))
  | Ok serialized_content =>
      let '(c, err) := cache_SetSubject urn message (cache (self w)) in
      let w := with_cache c w in
      let '(w, wg) := wg_new w in
      (w, AtSelect (mkMutation MUTATION_OP_SET_SUBJECT urn wg
                               serialized_content completion)
                   (TailReturn None)
                   (wait_if_negative_buffer config_obj err))
  end.

(** [SetSubject]. *)
Definition SetSubject (io : io_outcome) (urn : DSPathSpec) (message : M)
    (w : World) : World * option error :=
  match Marshal urn message with
  | Err e => (w, Some e)
  | Ok serialized_content =>
      let '(c, err) := cache_SetData urn serialized_content (cache (self w)) in
      let w := with_cache c w in
      match err with
      | Some e => (w, Some e)
      | None =>
          let '(d, err) := writeContentToFile io urn serialized_content (disk w) in
          (with_disk d w, err)
      end
  end.

End calls.

(** ** Callers and writers running together *)

Section system.
Context {M : Type} `{ProtoMessage M}.

(** The calls a client can issue. *)
Inductive Call : Type :=
| CallSetSubjectWithCompletion (config_obj : Config) (urn : DSPathSpec)
    (message : M) (completion : option nat)
| CallDeleteSubject (config_obj : Config) (urn : DSPathSpec)
| CallSetBuffer (config_obj : Config) (urn : DSPathSpec) (data : bytes)
    (completion : option nat)
| CallSetSubject (io : io_outcome) (urn : DSPathSpec) (message : M)
| CallGetSubject (io : io_outcome) (urn : DSPathSpec)
| CallGetBuffer (io : io_outcome) (urn : DSPathSpec).

(** A call runs up to its first blocking point, or to its return. *)
Definition start_call (c : Call) (w : World) : World * Thread :=
  match c with
  | CallSetSubjectWithCompletion config_obj urn message completion =>
      SetSubjectWithCompletion config_obj urn message completion w
  | CallDeleteSubject config_obj urn => DeleteSubject config_obj urn w
  | CallSetBuffer config_obj urn data completion =>
      SetBuffer config_obj urn data completion w
  | CallSetSubject io urn message =>
      let '(w', err) := SetSubject io urn message w in (w', Returned err)
  | CallGetSubject io urn =>
      let '(w', r) := GetSubject (M := M) io urn w in
      (w', Returned (result_err r))
  | CallGetBuffer io urn =>
      let '(w', r) := GetBuffer io urn w in (w', Returned (result_err r))
  end.

Record System : Type := mkSystem {
  world : World;
  threads : list Thread;
}.

Inductive label : Type :=
| LCall (c : Call)
| LSelectDone (i : nat)
| LSelectSend (i : nat)
| LWaitReturn (i : nat)
| LWriter (mutation : Mutation) (io : io_outcome)
| LWriterExit
| LCancel
| LOther.

(** One move of one goroutine.  [step_other] stands for the activity
    that only touches the caches, the files and the metrics: directory
    listings, [Clear], [Close], idle expiry in the caches. *)
Inductive step : System -> label -> System -> Prop :=
| step_call s c w t :
    start_call c (world s) = (w, t) ->
    step s (LCall c) (mkSystem w (threads s ++ [t]))
| step_select_done s i t w t' :
    threads s !! i = Some t ->
    select_done (world s) t = Some (w, t') ->
    step s (LSelectDone i) (mkSystem w (<[i := t']> (threads s)))
| step_select_send s i t w t' :
    threads s !! i = Some t ->
    select_send (world s) t = Some (w, t') ->
    step s (LSelectSend i) (mkSystem w (<[i := t']> (threads s)))
| step_wait_return s i t w t' :
    threads s !! i = Some t ->
    wait_return (world s) t = Some (w, t') ->
    step s (LWaitReturn i) (mkSystem w (<[i := t']> (threads s)))
| step_writer s io mutation w :
    (0 < workers (world s))%nat ->
    writer_turn io (world s) = Some (mutation, w) ->
    step s (LWriter mutation io) (mkSystem w (threads s))
| step_writer_exit s :
    ctx_done (self (world s)) = true ->
    step s LWriterExit
         (mkSystem (with_workers (pred (workers (world s))) (world s))
                   (threads s))
| step_cancel s :
    step s LCancel (mkSystem (with_ctx_done true (world s)) (threads s))
| step_other s data dirs files m :
    step s LOther
         (mkSystem
            (with_metrics m
               (with_disk files
                  (with_cache
                     (mkMemcacheDatastore data dirs
                        (get_dir_metadata (cache (self (world s))))
                        (expiry_timeout (cache (self (world s))))
                        (check_expiration (cache (self (world s)))))
                     (world s))))
            (threads s)).

(** Runs from [s], with the labels of their steps in order. *)
Inductive exec (s : System) : list label -> System -> Prop :=
| exec_nil : exec s [] s
| exec_snoc tr s1 l s2 :
    exec s tr s1 -> step s1 l s2 -> exec s (tr ++ [l]) s2.

(** The systems that a freshly started store can get to. *)
Definition reachable (s : System) : Prop :=
  exists config_obj files w tr,
    boot config_obj files = Some w /\ exec (mkSystem w []) tr s.

(** The mutation a blocked call holds. *)
Definition thread_mutation (t : Thread) : option Mutation :=
  match t with
  | AtSelect mutation _ _ => Some mutation
  | AtWait mutation _ => Some mutation
  | _ => None
  end.

(** Wait groups are private to the call that made them: no two calls
    hold the same one, a queued mutation's group still counts one, and a
    call in its [select] has not queued its mutation yet.  Stated over
    the channel content, the counters, the next free identity and the
    calls in flight. *)
Record wg_inv_on (queue : list Mutation) (groups : gmap nat Z) (next : nat)
    (ts : list Thread) : Prop := mk_wg_inv {
  inv_distinct : forall i j t t' m m',
    i <> j -> ts !! i = Some t -> ts !! j = Some t' ->
    thread_mutation t = Some m -> thread_mutation t' = Some m' ->
    wg m <> wg m';
  inv_thread_bound : forall i t m,
    ts !! i = Some t -> thread_mutation t = Some m -> (wg m < next)%nat;
  inv_queue : forall m,
    m ∈ queue -> (wg m < next)%nat /\ counter_of groups (wg m) = 1;
  inv_queue_nodup : NoDup (wg <$> queue);
  inv_select : forall i m d k,
    ts !! i = Some (AtSelect m d k) ->
    counter_of groups (wg m) = 1 /\
    forall m', m' ∈ queue -> wg m' <> wg m;
  inv_wait : forall i m e,
    ts !! i = Some (AtWait m e) ->
    forall m', m' ∈ queue -> wg m' = wg m -> m' = m;
}.

Definition wg_inv (s : System) : Prop :=
  wg_inv_on (writer (self (world s))) (waitgroups (world s))
            (next_wg (world s)) (threads s).



End system.

(** ** Sample data *)

(** A message type for the examples: a blob is encoded as its bytes, and
    [Unencodable] is a message that both encoders reject. *)
Inductive Blob : Type :=
| BlobOf (payload : bytes)
| Unencodable.

#[global] Instance Blob_ProtoMessage : ProtoMessage Blob := {
  protojson_Marshal m :=
    match m with
    | BlobOf b => Ok b
    | Unencodable => Err (ErrCodec "protojson: cannot marshal")
    end;
  proto_Marshal m :=
    match m with
    | BlobOf b => Ok b
    | Unencodable => Err (ErrCodec "proto: cannot marshal")
    end;
  protojson_Unmarshal b := Ok (BlobOf b);
  proto_Unmarshal b := Ok (BlobOf b);
}.

Definition sample_urn : DSPathSpec :=
  mkPath ["clients"; "C.1234"; "ping.json.db"]%string PATH_TYPE_DATASTORE_JSON.

Definition sample_payload : bytes := ["{"; "}"]%byte.

Definition sample_dir : DSPathSpec :=
  mkPath ["clients"; "C.1234"]%string PATH_TYPE_DATASTORE_JSON.

(** A directory listing known to be a lower bound only. *)
Definition partial_listing : DirectoryMetadata :=
  mkDirectoryMetadata [sample_urn] false.

Definition sample_dirs : DirectoryLRUCache :=
  mkDirectoryLRUCache
    (LRU.mk [("/clients/C.1234"%string, partial_listing)] 1000).

Definition unset_config : Config :=
  mkConfig (Some (mkDatastoreConfig 0 0 0 0 0 0)).

Definition write_through_config : Config :=
  mkConfig (Some (mkDatastoreConfig 0 (-1) 0 0 0 0)).

(** A store whose data cache keeps items of at most one byte. *)
Definition tiny_item_config : Config :=
  mkConfig (Some (mkDatastoreConfig 0 0 0 0 1 0)).

(** A configuration without its datastore section. *)
Definition nil_datastore_config : Config := mkConfig None.

(** The zero value of everything; it stands in where [boot] has no
    world to give. *)
Definition zero_world : World :=
  mkWorld (mkMemcacheFileDataStore
             (mkMemcacheDatastore (NewDataLRUCache 0 0)
                                  (NewDirectoryLRUCache 0 0)
                                  get_file_dir_metadata 0 None) [] 0 false)
          ∅ (mkMetrics 0 0 0 0 0) ∅ 0 [] 0.

(** A store started with every option unset, over an empty disk. *)
Definition sample_world : World :=
  default zero_world (boot unset_config ∅).

(** A started store whose channel holds one SET mutation. *)
Definition failing_set_world : World :=
  with_writer [mkMutation MUTATION_OP_SET_SUBJECT sample_urn 0 sample_payload
                          (Some 7%nat)]
              (wg_new sample_world).1.

(** A started store over a disk that holds one file, with a data cache
    that keeps items of at most one byte. *)
Definition oversize_world : World :=
  default zero_world
          (boot tiny_item_config {[ sample_urn := sample_payload ]}).

(** A store started in write-through mode, and runs over it. *)
Definition wt_world : World :=
  default zero_world (boot write_through_config ∅).

Definition wt_call : Call (M := Blob) :=
  CallSetSubjectWithCompletion write_through_config sample_urn
                               (BlobOf sample_payload) (Some 7%nat).

Definition wt_mutation : Mutation :=
  mkMutation MUTATION_OP_SET_SUBJECT sample_urn 0 sample_payload (Some 7%nat).


Definition wt_started : System :=
  mkSystem (start_call wt_call wt_world).1 [(start_call wt_call wt_world).2].

Definition wt_sent : System :=
  mkSystem (with_writer [wt_mutation] (world wt_started))
           [AtWait wt_mutation None].

Definition wt_written : System :=
  mkSystem (process_mutation IoOk wt_mutation (with_writer [] (world wt_sent)))
           (threads wt_sent).






Definition cancelled_system : System :=
  mkSystem (with_ctx_done true wt_world) [].

Definition delete_call : Call (M := Blob) :=
  CallDeleteSubject write_through_config sample_urn.

Definition delete_mutation : Mutation :=
  mkMutation MUTATION_OP_DEL_SUBJECT sample_urn 0 [] None.

Definition delete_started : System :=
  mkSystem (start_call delete_call (world cancelled_system)).1
           (threads cancelled_system
              ++ [(start_call delete_call (world cancelled_system)).2]).

Definition delete_waiting : System :=
  mkSystem (world delete_started)
           (<[0%nat := AtWait delete_mutation None]> (threads delete_started)).

(** ** More sample data *)

(** A configuration that asks for a negative number of writers. *)
Definition negative_writers_config : Config :=
  mkConfig (Some (mkDatastoreConfig 0 0 (-1) 0 0 0)).

(** The zero world after [StartWriter] under that configuration. *)
Definition negative_writers_world : World :=
  default zero_world (StartWriter false negative_writers_config zero_world).

(** A configuration with every size and the channel capacity set. *)
Definition sized_config : Config :=
  mkConfig (Some (mkDatastoreConfig 30 5 2 200 4096 50)).

(** The store the constructor builds for [sized_config]. *)
Definition sized_store : MemcacheFileDataStore :=
  mkMemcacheFileDataStore
    (mkMemcacheDatastore (NewDataLRUCache 200 4096)
                         (NewDirectoryLRUCache 200 50)
                         get_file_dir_metadata 0 None)
    [] 0 false.

(** A store started with every option unset over a disk that holds the
    sample file. *)
Definition stocked_world : World :=
  default zero_world (boot unset_config {[ sample_urn := sample_payload ]}).

(** The sample store after [SetBuffer] has cached the sample payload. *)
Definition cached_world : World :=
  (SetBuffer unset_config sample_urn sample_payload None sample_world).1.

(** A started store whose channel holds one DELETE mutation, over a
    disk that holds the file to delete. *)
Definition pending_delete_world : World :=
  with_writer [mkMutation MUTATION_OP_DEL_SUBJECT sample_urn 0 [] (Some 7%nat)]
              (wg_new stocked_world).1.

(** A delete with a read in between: [DeleteSubject] on the store that
    has the sample file on disk, then a [GetBuffer] of the same path,
    then the channel accepts the DELETE mutation. *)
Definition recached_delete_world : World :=
  let deleted := DeleteSubject unset_config sample_urn stocked_world in
  default zero_world
          (fst <$> select_send (GetBuffer IoOk sample_urn deleted.1).1
                               deleted.2).

(** The same store after a writer has processed the DELETE mutation. *)
Definition deleted_recached_world : World :=
  process_mutation IoOk delete_mutation (with_writer [] recached_delete_world).

(** A system in which one write-through call waits for its mutation,
    which is the oldest in the channel. *)
Definition wt_waiting_world : World :=
  with_writer [wt_mutation] (start_call wt_call wt_world).1.

(** ** Successive turns of the writers *)

(** Writers taking mutations off the channel one after another, the
    backend answering each turn as [ios] says; the mutations are listed
    in the order they were processed. *)
Fixpoint drain (ios : list io_outcome) (w : World) : list Mutation * World :=
  match ios with
  | [] => ([], w)
  | io :: ios' =>
      match writer_turn io w with
      | None => ([], w)
      | Some (mutation, w') =>
          let '(done, w'') := drain ios' w' in (mutation :: done, w'')
      end
  end.

(** ** Specification devices *)

(** The directories the invalidation loop visits from [start]: [start]
    itself and every parent above it, nearest first.  The root (no
    components) is not among them. *)
Definition walked (start : DSPathSpec) : list DSPathSpec :=
  (fun n => mkPath (take n (Components start)) (path_type start))
    <$> reverse (seq 1 (length (Components start))).

(** What the directory cache holds under [key] once every non-full
    entry of the directories walked from [start] has been dropped. *)
Definition invalidated (start : DSPathSpec) (dirs : DirectoryLRUCache)
    (key : string) : option DirectoryMetadata :=
  match dir_peek key dirs with
  | Some md =>
      if IsFull md then Some md
      else if bool_decide (key ∈ AsDatastoreDirectory <$> walked start)
           then None else Some md
  | None => None
  end.


(** * Properties *)

(** ** The LRU as a map *)

Section lru_facts.
Context {K V : Type} `{EqDecision K}.
Implicit Types (k : K) (l : list (K * V)) (c : LRU.t K V).

Lemma assoc_drop_key k k' l :
  LRU.assoc k' (LRU.drop_key k l) =
  if decide (k = k') then None else LRU.assoc k' l.
Proof.
  induction l as [|[k0 v0] l IH]; simpl.
  - by destruct (decide (k = k')).
  - destruct (decide (k0 = k)) as [->|Hne]; simpl.
    + rewrite IH. destruct (decide (k = k')); [done|].
      by destruct (decide (k = k')).
    + rewrite IH. destruct (decide (k0 = k')) as [->|]; [|done].
      by destruct (decide (k = k')).
Qed.

Lemma Peek_Get k k' c : LRU.Peek k' (LRU.Get k c).2 = LRU.Peek k' c.
Proof.
  unfold LRU.Peek, LRU.Get.
  destruct (LRU.assoc k (LRU.items c)) as [v|] eqn:E; simpl; [|done].
  destruct (decide (k = k')) as [->|Hne]; [done|].
  rewrite assoc_drop_key. by destruct (decide (k = k')).
Qed.

Lemma Get_Peek k c : (LRU.Get k c).1 = LRU.Peek k c.
Proof.
  unfold LRU.Peek, LRU.Get. by destruct (LRU.assoc k (LRU.items c)).
Qed.

Lemma Peek_Remove k k' c :
  LRU.Peek k' (LRU.Remove k c) = if decide (k = k') then None else LRU.Peek k' c.
Proof. apply assoc_drop_key. Qed.

Lemma Peek_Set k v c :
  0 < LRU.max_size c -> LRU.Peek k (LRU.Set_ k v c) = Some v.
Proof.
  intros Hpos. unfold LRU.Peek, LRU.Set_; simpl.
  destruct (Z.to_nat (LRU.max_size c)) as [|n] eqn:E; [lia|].
  simpl. by destruct (decide (k = k)).
Qed.

End lru_facts.

(** ** Directory cache invalidation *)

Lemma dir_peek_Get path key dirs :
  dir_peek key (DirectoryLRUCache_Get path dirs).2 = dir_peek key dirs.
Proof.
  unfold dir_peek, DirectoryLRUCache_Get.
  pose proof (Peek_Get path key (dir_lru dirs)) as HP.
  destruct (LRU.Get path (dir_lru dirs)) as [v l]. exact HP.
Qed.

Lemma dir_Get_peek path dirs :
  (DirectoryLRUCache_Get path dirs).1 = dir_peek path dirs.
Proof.
  unfold dir_peek, DirectoryLRUCache_Get.
  pose proof (Get_Peek path (dir_lru dirs)) as HP.
  destruct (LRU.Get path (dir_lru dirs)) as [v l]. exact HP.
Qed.

Lemma dir_peek_Remove path key dirs :
  dir_peek key (DirectoryLRUCache_Remove path dirs) =
  if decide (path = key) then None else dir_peek key dirs.
Proof. apply Peek_Remove. Qed.

Lemma dir_peek_invalidate_entry u key dirs :
  dir_peek key (invalidate_entry u dirs) =
  if decide (AsDatastoreDirectory u = key)
  then match dir_peek key dirs with
       | Some md => if IsFull md then Some md else None
       | None => None
       end
  else dir_peek key dirs.
Proof.
  unfold invalidate_entry.
  pose proof (dir_peek_Get (AsDatastoreDirectory u) key dirs) as HG.
  pose proof (dir_Get_peek (AsDatastoreDirectory u) dirs) as HP.
  destruct (DirectoryLRUCache_Get (AsDatastoreDirectory u) dirs) as [md dirs1].
  simpl in *. subst md.
  destruct (dir_peek (AsDatastoreDirectory u) dirs) as [md|] eqn:E.
  - destruct (IsFull md) eqn:F; simpl.
    + rewrite HG. destruct (decide _) as [<-|]; [|done]. by rewrite E, F.
    + rewrite dir_peek_Remove, HG.
      destruct (decide _) as [<-|]; [|done]. by rewrite E, F.
  - rewrite HG. destruct (decide _) as [<-|]; [|done]. by rewrite E.
Qed.

Lemma walked_nil start : Components start = [] -> walked start = [].
Proof. unfold walked. by intros ->. Qed.

Lemma walked_cons start :
  (0 < length (Components start))%nat ->
  walked start = start :: walked (Dir start).
Proof.
  destruct start as [comps ty]. unfold walked, Dir. simpl. intros Hlen.
  destruct (length comps) as [|n] eqn:En; [lia|].
  rewrite seq_S, reverse_app. simpl.
  f_equal.
  - by rewrite <- En, firstn_all.
  - rewrite removelast_firstn_len, length_firstn, En.
    replace (Init.Nat.min (Init.Nat.pred (S n)) (S n)) with n by lia.
    apply list_fmap_ext. intros i m Hm.
    apply list_elem_of_lookup_2, elem_of_reverse, elem_of_seq in Hm.
    f_equal. simpl. rewrite take_take. f_equal. lia.
Qed.

Lemma invalidate_walk_foldl start dirs :
  invalidate_walk start dirs =
  foldl (fun d u => invalidate_entry u d) dirs (walked start).
Proof.
  funelim (invalidate_walk start dirs).
  - rewrite walked_cons by done. simpl. rewrite <- H. done.
  - rewrite walked_nil; [done|].
    destruct (Components urn0); [done|simpl in *; lia].
Qed.

Lemma dir_peek_foldl_invalidate l key dirs :
  dir_peek key (foldl (fun d u => invalidate_entry u d) dirs l) =
  match dir_peek key dirs with
  | Some md =>
      if IsFull md then Some md
      else if bool_decide (key ∈ AsDatastoreDirectory <$> l)
           then None else Some md
  | None => None
  end.
Proof.
  revert dirs. induction l as [|u l IH]; intros dirs; simpl.
  - destruct (dir_peek key dirs) as [md|]; [|done].
    by destruct (IsFull md).
  - rewrite IH, dir_peek_invalidate_entry.
    destruct (decide (AsDatastoreDirectory u = key)) as [<-|Hne].
    + destruct (dir_peek _ dirs) as [md|]; [|done].
      destruct (IsFull md) eqn:F; [by rewrite F|].
      rewrite bool_decide_eq_true_2; [done|]. apply elem_of_cons; by left.
    + destruct (dir_peek key dirs) as [md|]; [|done].
      destruct (IsFull md); [done|].
      apply (f_equal (fun b : bool => if b then None else Some md)).
      apply bool_decide_ext. rewrite elem_of_cons.
      split; [by right|]. intros [Heq|Hin]; [by symmetry in Heq|done].
Qed.

(** The walk never visits the root: every walked directory has a
    component, so its key is not the empty string. *)
Lemma root_is_not_walked start :
  AsDatastoreDirectory (mkPath [] (path_type start))
    ∉ AsDatastoreDirectory <$> walked start.
Proof.
  intros Hin. apply list_elem_of_fmap in Hin as (u & Hkey & Hu).
  unfold walked in Hu. apply list_elem_of_fmap in Hu as (n & -> & Hn).
  apply elem_of_reverse, elem_of_seq in Hn.
  destruct (Components start) as [|c comps]; [simpl in Hn; lia|].
  destruct n as [|n]; [lia|]. discriminate.
Qed.

Lemma dir_peek_invalidate_walk start key dirs :
  dir_peek key (invalidate_walk start dirs) = invalidated start dirs key.
Proof. rewrite invalidate_walk_foldl. apply dir_peek_foldl_invalidate. Qed.



(** ** The file backed resolver *)

(** C6, as the claim states it, fails: asked about a directory whose
    cached listing is not full, the resolver hands that listing back and
    leaves it in the cache. *)
Lemma resolver_returns_non_full_entry :
  (get_file_dir_metadata sample_dirs sample_dir).2 = Ok partial_listing /\
  IsFull partial_listing = false /\
  dir_peek (AsDatastoreDirectory sample_dir)
           (get_file_dir_metadata sample_dirs sample_dir).1
  = Some partial_listing.
Proof. vm_compute. done. Qed.

(** C6, amended.  The resolver returns the cached metadata of the
    directory it is asked about whenever the cache holds an entry for it,
    full or not, and then leaves every entry in place.  Only when the
    cache holds no entry for that directory does it return the
    no-metadata error, having dropped the non-full entries of the
    directories walked from its parent upwards. *)
Theorem get_file_dir_metadata_returns_any_cached_entry
    (dirs : DirectoryLRUCache) (urn : DSPathSpec) :
  match dir_peek (AsDatastoreDirectory urn) dirs with
  | Some md =>
      (get_file_dir_metadata dirs urn).2 = Ok md /\
      forall key, dir_peek key (get_file_dir_metadata dirs urn).1
                  = dir_peek key dirs
  | None =>
      (get_file_dir_metadata dirs urn).2 = Err ErrNoDirectoryMetadata /\
      forall key, dir_peek key (get_file_dir_metadata dirs urn).1
                  = invalidated (Dir urn) dirs key
  end.
Proof.
  unfold get_file_dir_metadata.
  pose proof (dir_Get_peek (AsDatastoreDirectory urn) dirs) as HP.
  pose proof (fun key => dir_peek_Get (AsDatastoreDirectory urn) key dirs) as HG.
  destruct (DirectoryLRUCache_Get (AsDatastoreDirectory urn) dirs) as [md dirs1].
  simpl in *. subst md.
  destruct (dir_peek (AsDatastoreDirectory urn) dirs) as [md|]; simpl.
  - split; [done|]. exact HG.
  - split; [done|]. intros key.
    rewrite dir_peek_invalidate_walk. unfold invalidated. by rewrite HG.
Qed.

(** ** Construction *)

(** C10 at a failing input.  A configuration without its datastore
    section leaves every size unset, and the constructor builds no store
    from it: the entry count of the data cache is read behind a nil
    check, the item size and the directory size are read through the nil
    pointer, and the constructor panics. *)
Theorem constructor_nil_datastore_panics :
  Datastore nil_datastore_config = None /\
  NewMemcacheFileDataStore nil_datastore_config = None.
Proof. split; reflexivity. Qed.

(** With a datastore section that leaves the three sizes unset (zero, or
    any value that is not positive), the constructor hands 10,000 and
    65,536 to the constructor of the data cache, and 10,000 and 1,000 to
    the constructor of the directory cache. *)
Lemma constructor_default_sizes config_obj ds :
  Datastore config_obj = Some ds ->
  MemcacheDatastoreMaxSize ds <= 0 ->
  MemcacheDatastoreMaxItemSize ds <= 0 ->
  MemcacheDatastoreMaxDirSize ds <= 0 ->
  exists s,
    NewMemcacheFileDataStore config_obj = Some s /\
    data_cache (cache s) = NewDataLRUCache 10000 65536 /\
    dir_cache (cache s) = NewDirectoryLRUCache 10000 1000 /\
    LRU.max_size (data_lru (data_cache (cache s))) = 10000 /\
    data_max_item_size (data_cache (cache s)) = 65536.
Proof.
  intros Hds Hsize Hitem Hdir. unfold NewMemcacheFileDataStore. rewrite Hds.
  eexists. split; [reflexivity|]. simpl.
  destruct (Z.gtb_spec (MemcacheDatastoreMaxSize ds) 0); [lia|].
  destruct (Z.gtb_spec (MemcacheDatastoreMaxItemSize ds) 0); [lia|].
  destruct (Z.gtb_spec (MemcacheDatastoreMaxDirSize ds) 0); [lia|].
  done.
Qed.

(** ** The writer *)

(** C9.  A writer that receives a SET mutation runs its completion
    callback, if it has one, and releases its wait group whatever the
    backend answers; when the write fails the files are as before.  The
    mutation has left the channel and is not put back. *)
Theorem writer_signals_completion_even_on_failure
    (io : io_outcome) (mutation : Mutation) (rest : list Mutation) (w : World) :
  writer (self w) = mutation :: rest ->
  op mutation = MUTATION_OP_SET_SUBJECT ->
  exists w',
    writer_turn io w = Some (mutation, w') /\
    callbacks_run w' =
      match completion mutation with
      | Some f => f :: callbacks_run w
      | None => callbacks_run w
      end /\
    wg_counter (wg mutation) w' = wg_counter (wg mutation) w - 1 /\
    writer (self w') = rest /\
    disk w' = (writeContentToFile io (urn mutation) (data mutation) (disk w)).1 /\
    (forall e, io = IoFail e -> disk w' = disk w).
Proof.
  intros Hq Hop. unfold writer_turn. rewrite Hq.
  eexists. split; [reflexivity|].
  unfold process_mutation. rewrite Hop.
  destruct io, (completion mutation); simpl;
    unfold wg_counter, counter_of; simpl; rewrite lookup_insert_eq; simpl;
    repeat split; try done; intros; discriminate.
Qed.

Lemma writer_signals_completion_even_on_failure_witness :
  exists w',
    writer_turn (IoFail (ErrIO "disk full")) failing_set_world
    = Some (mkMutation MUTATION_OP_SET_SUBJECT sample_urn 0 sample_payload
                       (Some 7%nat), w') /\
    callbacks_run w' = [7%nat] /\
    wg_counter 0 w' = 1 - 1 /\
    writer (self w') = [] /\
    disk w' = ∅ /\
    (forall e, IoFail (ErrIO "disk full") = IoFail e -> disk w' = ∅).
Proof.
  apply (writer_signals_completion_even_on_failure
           (IoFail (ErrIO "disk full"))
           (mkMutation MUTATION_OP_SET_SUBJECT sample_urn 0 sample_payload
                       (Some 7%nat))
           [] failing_set_world); reflexivity.
Defined.

(** ** The write path *)

Section write_path.
Context {M : Type} `{ProtoMessage M}.

Lemma cache_SetSubject_ok urn (message : M) serialized c :
  Marshal urn message = Ok serialized ->
  cache_SetSubject urn message c = cache_SetData urn serialized c.
Proof. intros Hm. unfold cache_SetSubject. by rewrite Hm. Qed.

Lemma cache_SetData_nil urn data c : (cache_SetData urn data c).2 = None.
Proof.
  unfold cache_SetData.
  by destruct (get_dir_metadata c (dir_cache c) (Dir urn)) as [dirs md].
Qed.

Lemma data_peek_SetData urn data c :
  Z.of_nat (length data) <= data_max_item_size (data_cache c) ->
  0 < LRU.max_size (data_lru (data_cache c)) ->
  data_peek urn (data_cache (cache_SetData urn data c).1) = Some data.
Proof.
  intros Hlen Hcap. unfold cache_SetData.
  destruct (get_dir_metadata c (dir_cache c) (Dir urn)) as [dirs md]. simpl.
  unfold DataLRUCache_Set.
  destruct (Z.gtb_spec (Z.of_nat (length data))
                       (data_max_item_size (data_cache c))); [lia|].
  by apply Peek_Set.
Qed.

Lemma SetSubjectWithCompletion_ok config_obj urn (message : M) completion
    serialized w :
  Marshal urn message = Ok serialized ->
  SetSubjectWithCompletion config_obj urn message completion w =
  ((wg_new (with_cache (cache_SetData urn serialized (cache (self w))).1 w)).1,
   AtSelect (mkMutation MUTATION_OP_SET_SUBJECT urn (next_wg w) serialized
                        completion)
            (TailReturn None) (wait_if_negative_buffer config_obj None)).
Proof.
  intros Hm. unfold SetSubjectWithCompletion. rewrite Hm.
  rewrite (cache_SetSubject_ok _ _ _ _ Hm).
  pose proof (cache_SetData_nil urn serialized (cache (self w))) as Hnil.
  destruct (cache_SetData urn serialized (cache (self w))) as [c err].
  simpl in Hnil. subst err. reflexivity.
Qed.

Lemma SetSubject_ok io urn (message : M) serialized w :
  Marshal urn message = Ok serialized ->
  SetSubject io urn message w =
  (with_disk (writeContentToFile io urn serialized (disk w)).1
             (with_cache (cache_SetData urn serialized (cache (self w))).1 w),
   (writeContentToFile io urn serialized (disk w)).2).
Proof.
  intros Hm. unfold SetSubject. rewrite Hm.
  pose proof (cache_SetData_nil urn serialized (cache (self w))) as Hnil.
  destruct (cache_SetData urn serialized (cache (self w))) as [c err].
  simpl in Hnil. subst err. simpl.
  by destruct (writeContentToFile io urn serialized (disk w)).
Qed.

(** C7.  A message that the encoder of its path's tag rejects makes both
    [SetSubject] and [SetSubjectWithCompletion] return that error at
    once; the world, with its data cache, its channel and its files, is
    the one the call started from. *)
Theorem encode_failure_leaves_store_untouched
    (config_obj : Config) (io : io_outcome) (urn : DSPathSpec) (message : M)
    (completion : option nat) (e : error) (w : World) :
  Marshal urn message = Err e ->
  SetSubjectWithCompletion config_obj urn message completion w
  = (w, Returned (Some e)) /\
  SetSubject io urn message w = (w, Some e).
Proof.
  intros Hm. unfold SetSubjectWithCompletion, SetSubject. by rewrite Hm.
Qed.

(** C8.  Once [SetSubjectWithCompletion] has encoded the message it has
    updated the memcache and stands in its [select] with nothing queued
    and no file written; the payload is in the data cache when it fits
    the caps.  In any later world whose context is cancelled, taking the
    [ctx.Done()] branch returns nil and changes nothing. *)
Theorem cancelled_submission_returns_nil
    (config_obj : Config) (urn : DSPathSpec) (message : M)
    (completion : option nat) (serialized : bytes) (w : World) :
  Marshal urn message = Ok serialized ->
  let '(w1, t) :=
    SetSubjectWithCompletion config_obj urn message completion w in
  cache (self w1) = (cache_SetSubject urn message (cache (self w))).1 /\
  (Z.of_nat (length serialized)
     <= data_max_item_size (data_cache (cache (self w))) ->
   0 < LRU.max_size (data_lru (data_cache (cache (self w)))) ->
   data_peek urn (data_cache (cache (self w1))) = Some serialized) /\
  writer (self w1) = writer (self w) /\
  disk w1 = disk w /\
  forall w', ctx_done (self w') = true ->
             select_done w' t = Some (w', Returned None).
Proof.
  intros Hm. rewrite (SetSubjectWithCompletion_ok _ _ _ _ _ _ Hm).
  rewrite (cache_SetSubject_ok _ _ _ _ Hm). simpl.
  repeat split; try done.
  - intros Hlen Hcap. by apply data_peek_SetData.
  - intros w' Hdone. by rewrite Hdone.
Qed.

(** C1, amended.  When encoding succeeds, [SetSubjectWithCompletion]
    updates the memcache at once, writes no file itself, and stands in
    its [select] with a SET mutation that carries the serialized
    payload; whenever the channel has room the send branch appends that
    mutation to the channel.  [SetSubject] also updates the memcache at
    once, but then writes the file itself through the backend and
    returns the backend's answer: it allocates no wait group and leaves
    the channel as it was. *)
Theorem set_paths_update_cache_then_queue_or_write
    (config_obj : Config) (io : io_outcome) (urn : DSPathSpec) (message : M)
    (completion : option nat) (serialized : bytes) (w : World) :
  Marshal urn message = Ok serialized ->
  (let '(w1, t) :=
     SetSubjectWithCompletion config_obj urn message completion w in
   let mutation :=
     mkMutation MUTATION_OP_SET_SUBJECT urn (next_wg w) serialized completion in
   cache (self w1) = (cache_SetSubject urn message (cache (self w))).1 /\
   (Z.of_nat (length serialized)
      <= data_max_item_size (data_cache (cache (self w))) ->
    0 < LRU.max_size (data_lru (data_cache (cache (self w)))) ->
    data_peek urn (data_cache (cache (self w1))) = Some serialized) /\
   disk w1 = disk w /\
   writer (self w1) = writer (self w) /\
   exists on_sent,
     t = AtSelect mutation (TailReturn None) on_sent /\
     forall w', Z.of_nat (length (writer (self w'))) < writer_cap (self w') ->
                select_send w' t =
                Some (with_writer (writer (self w') ++ [mutation]) w',
                      resume mutation on_sent)) /\
  (let '(w1, err) := SetSubject io urn message w in
   cache (self w1) = (cache_SetData urn serialized (cache (self w))).1 /\
   (Z.of_nat (length serialized)
      <= data_max_item_size (data_cache (cache (self w))) ->
    0 < LRU.max_size (data_lru (data_cache (cache (self w)))) ->
    data_peek urn (data_cache (cache (self w1))) = Some serialized) /\
   writer (self w1) = writer (self w) /\
   next_wg w1 = next_wg w /\
   (disk w1, err) = writeContentToFile io urn serialized (disk w)).
Proof.
  intros Hm. split.
  - rewrite (SetSubjectWithCompletion_ok _ _ _ _ _ _ Hm).
    rewrite (cache_SetSubject_ok _ _ _ _ Hm). simpl.
    repeat split; try done.
    + intros Hlen Hcap. by apply data_peek_SetData.
    + eexists. split; [reflexivity|]. intros w' Hroom. simpl.
      destruct (Z.ltb_spec (Z.of_nat (length (writer (self w'))))
                           (writer_cap (self w'))); [done|lia].
  - rewrite (SetSubject_ok _ _ _ _ _ Hm). simpl.
    repeat split; try done.
    + intros Hlen Hcap. by apply data_peek_SetData.
    + by destruct (writeContentToFile io urn serialized (disk w)).
Qed.

End write_path.

(** C1, as the claim states it, fails for [SetSubject]: on a started
    store with an empty channel it queues nothing and has written the
    file by the time it returns. *)
Lemma SetSubject_writes_file_and_queues_nothing :
  writer (self sample_world) = [] /\
  disk sample_world !! sample_urn = None /\
  writer (self (SetSubject IoOk sample_urn (BlobOf sample_payload)
                           sample_world).1) = [] /\
  disk (SetSubject IoOk sample_urn (BlobOf sample_payload) sample_world).1
    !! sample_urn = Some sample_payload.
Proof. vm_compute. done. Qed.

Lemma set_paths_update_cache_then_queue_or_write_witness :
  (let '(w1, t) :=
     SetSubjectWithCompletion unset_config sample_urn (BlobOf sample_payload)
                              (Some 7%nat) sample_world in
   let mutation :=
     mkMutation MUTATION_OP_SET_SUBJECT sample_urn (next_wg sample_world)
                sample_payload (Some 7%nat) in
   cache (self w1) = (cache_SetSubject sample_urn (BlobOf sample_payload)
                                       (cache (self sample_world))).1 /\
   (Z.of_nat (length sample_payload)
      <= data_max_item_size (data_cache (cache (self sample_world))) ->
    0 < LRU.max_size (data_lru (data_cache (cache (self sample_world)))) ->
    data_peek sample_urn (data_cache (cache (self w1))) = Some sample_payload) /\
   disk w1 = disk sample_world /\
   writer (self w1) = writer (self sample_world) /\
   exists on_sent,
     t = AtSelect mutation (TailReturn None) on_sent /\
     forall w', Z.of_nat (length (writer (self w'))) < writer_cap (self w') ->
                select_send w' t =
                Some (with_writer (writer (self w') ++ [mutation]) w',
                      resume mutation on_sent)) /\
  (let '(w1, err) :=
     SetSubject IoOk sample_urn (BlobOf sample_payload) sample_world in
   cache (self w1) = (cache_SetData sample_urn sample_payload
                                    (cache (self sample_world))).1 /\
   (Z.of_nat (length sample_payload)
      <= data_max_item_size (data_cache (cache (self sample_world))) ->
    0 < LRU.max_size (data_lru (data_cache (cache (self sample_world)))) ->
    data_peek sample_urn (data_cache (cache (self w1))) = Some sample_payload) /\
   writer (self w1) = writer (self sample_world) /\
   next_wg w1 = next_wg sample_world /\
   (disk w1, err) = writeContentToFile IoOk sample_urn sample_payload
                                       (disk sample_world)).
Proof.
  apply (set_paths_update_cache_then_queue_or_write
           unset_config IoOk sample_urn (BlobOf sample_payload) (Some 7%nat)
           sample_payload sample_world).
  reflexivity.
Defined.

Lemma encode_failure_leaves_store_untouched_witness :
  SetSubjectWithCompletion unset_config sample_urn Unencodable None sample_world
  = (sample_world, Returned (Some (ErrCodec "protojson: cannot marshal"))) /\
  SetSubject IoOk sample_urn Unencodable sample_world
  = (sample_world, Some (ErrCodec "protojson: cannot marshal")).
Proof.
  apply (encode_failure_leaves_store_untouched
           unset_config IoOk sample_urn Unencodable None
           (ErrCodec "protojson: cannot marshal") sample_world).
  reflexivity.
Defined.

Lemma cancelled_submission_returns_nil_witness :
  let '(w1, t) :=
    SetSubjectWithCompletion unset_config sample_urn (BlobOf sample_payload)
                             None sample_world in
  cache (self w1) = (cache_SetSubject sample_urn (BlobOf sample_payload)
                                      (cache (self sample_world))).1 /\
  (Z.of_nat (length sample_payload)
     <= data_max_item_size (data_cache (cache (self sample_world))) ->
   0 < LRU.max_size (data_lru (data_cache (cache (self sample_world)))) ->
   data_peek sample_urn (data_cache (cache (self w1))) = Some sample_payload) /\
  writer (self w1) = writer (self sample_world) /\
  disk w1 = disk sample_world /\
  forall w', ctx_done (self w') = true ->
             select_done w' t = Some (w', Returned None).
Proof.
  apply (cancelled_submission_returns_nil
           unset_config sample_urn (BlobOf sample_payload) None
           sample_payload sample_world).
  reflexivity.
Defined.

(** ** The read path *)

(** C2 at a failing input.  The file exists on disk and is absent from
    the data cache, but its two bytes exceed the one-byte item cap, so
    [SetData] does not retain them: [GetSubject] counts the miss and then
    answers not-found from its second cache lookup, where [GetBuffer]
    returns the bytes it read. *)
Theorem GetSubject_oversize_payload_not_found :
  data_peek sample_urn (data_cache (cache (self oversize_world))) = None /\
  disk oversize_world !! sample_urn = Some sample_payload /\
  (GetSubject (M := Blob) IoOk sample_urn oversize_world).2 = Err ErrNotExist /\
  metricDataLRUMiss
    (metrics (GetSubject (M := Blob) IoOk sample_urn oversize_world).1) = 1 /\
  (GetBuffer IoOk sample_urn oversize_world).2 = Ok sample_payload.
Proof. vm_compute. done. Qed.

(** ** Wait groups under interleaving *)

Lemma select_done_inv w t w' t' :
  select_done w t = Some (w', t') ->
  w' = w /\ ctx_done (self w) = true /\
  exists m d k, t = AtSelect m d k /\ t' = resume m d.
Proof.
  destruct t as [m d k| | |]; simpl; try discriminate.
  destruct (ctx_done (self w)); [|discriminate].
  intros [= <- <-]. eauto 10.
Qed.

Lemma select_send_inv w t w' t' :
  select_send w t = Some (w', t') ->
  exists m d k, t = AtSelect m d k /\ t' = resume m k /\
                w' = with_writer (writer (self w) ++ [m]) w.
Proof.
  destruct t as [m d k| | |]; simpl; try discriminate.
  destruct (_ <? _); [|discriminate].
  intros [= <- <-]. eauto 10.
Qed.

Lemma wait_return_inv w t w' t' :
  wait_return w t = Some (w', t') ->
  w' = w /\ exists m e, t = AtWait m e /\ t' = Returned e /\
                        wg_counter (wg m) w = 0.
Proof.
  destruct t as [|m e| |]; simpl; try discriminate.
  destruct (decide _) as [Hz|]; [|discriminate].
  intros [= <- <-]. eauto 10.
Qed.

Lemma writer_turn_inv io w m w' :
  writer_turn io w = Some (m, w') ->
  exists rest,
    writer (self w) = m :: rest /\ writer (self w') = rest /\
    waitgroups w' = <[wg m := wg_counter (wg m) w - 1]> (waitgroups w) /\
    next_wg w' = next_wg w.
Proof.
  unfold writer_turn. destruct (writer (self w)) as [|m0 rest] eqn:Hq;
    [discriminate|].
  intros [= <- <-]. exists rest. split; [done|].
  unfold process_mutation.
  destruct (op m0), io, (completion m0); simpl; done.
Qed.

Lemma resume_mutation m k m' :
  thread_mutation (resume m k) = Some m' -> m' = m.
Proof. destruct k; simpl; congruence. Qed.

Lemma resume_not_select m k m' d' k' : resume m k <> AtSelect m' d' k'.
Proof. by destruct k. Qed.

Lemma resume_wait m k m' e : resume m k = AtWait m' e -> m' = m.
Proof. destruct k; simpl; congruence. Qed.

Section interleaving.
Context {M : Type} `{ProtoMessage M}.
Implicit Types (s : System) (c : Call (M := M)).

(** A call leaves the channel alone, and either allocates no wait group
    and holds no mutation, or allocates the next one and stands in its
    [select] with a mutation that names it. *)
Lemma start_call_inv c w w' t :
  start_call c w = (w', t) ->
  writer (self w') = writer (self w) /\
  ((waitgroups w' = waitgroups w /\ next_wg w' = next_wg w /\
    thread_mutation t = None) \/
   (waitgroups w' = <[next_wg w := 1]> (waitgroups w) /\
    next_wg w' = S (next_wg w) /\
    exists m d k, t = AtSelect m d k /\ wg m = next_wg w)).
Proof.
  destruct c as [cfg u msg comp|cfg u|cfg u dat comp|io u msg|io u|io u];
    simpl.
  - unfold SetSubjectWithCompletion.
    destruct (Marshal u msg) as [sc|e].
    + destruct (cache_SetSubject u msg (cache (self w))) as [c0 err]. simpl.
      intros [= <- <-]. split; [done|]. right. eauto 10.
    + intros [= <- <-]. split; [done|]. by left.
  - unfold DeleteSubject.
    destruct (cache_DeleteSubject u (cache (self w))) as [c0 err]. simpl.
    intros [= <- <-]. split; [done|]. right. eauto 10.
  - unfold SetBuffer.
    destruct (cache_SetData u dat (cache (self w))) as [c0 [e|]]; simpl.
    + intros [= <- <-]. split; [done|]. by left.
    + intros [= <- <-]. split; [done|]. right. eauto 10.
  - unfold SetSubject.
    destruct (Marshal u msg) as [sc|e].
    + destruct (cache_SetData u sc (cache (self w))) as [c0 [e|]]; simpl.
      * intros [= <- <-]. split; [done|]. by left.
      * destruct (writeContentToFile io u sc (disk w)) as [d err]. simpl.
        intros [= <- <-]. split; [done|]. by left.
    + intros [= <- <-]. split; [done|]. by left.
  - unfold GetSubject.
    destruct (cache_GetSubject u (cache (self w))) as [c0 r]. simpl.
    destruct (IsNotExist (result_err r)).
    + destruct (readContentFromFile io u true (disk w)) as [sc|e]; simpl.
      * destruct (cache_SetData u sc c0) as [c1 err1]. simpl.
        destruct (cache_GetSubject u c1) as [c2 r2]. simpl.
        intros [= <- <-]. split; [done|]. by left.
      * intros [= <- <-]. split; [done|]. by left.
    + intros [= <- <-]. split; [done|]. by left.
  - unfold GetBuffer.
    destruct (cache_GetBuffer u (cache (self w))) as [c0 [b|e]]; simpl.
    + intros [= <- <-]. split; [done|]. by left.
    + destruct (readContentFromFile io u true (disk w)) as [sc|e']; simpl.
      * destruct (cache_SetData u sc c0) as [c1 err1]. simpl.
        intros [= <- <-]. split; [done|]. by left.
      * intros [= <- <-]. split; [done|]. by left.
Qed.

End interleaving.

Lemma counter_of_insert groups g g' v :
  counter_of (<[g := v]> groups) g' =
  if decide (g = g') then v else counter_of groups g'.
Proof.
  unfold counter_of. rewrite lookup_insert.
  by destruct (decide (g = g')).
Qed.

(** A call that returned at once, or any thread holding no mutation,
    joins without disturbing the others. *)
Lemma wg_inv_spawn_idle queue groups next ts t :
  wg_inv_on queue groups next ts ->
  thread_mutation t = None ->
  wg_inv_on queue groups next (ts ++ [t]).
Proof.
  intros [Hd Hb Hq Hn Hs Hw] Hnone. split; try done.
  - intros i j t1 t2 m m' Hij H1 H2 Hm1 Hm2.
    apply lookup_snoc_Some in H1 as [[_ H1]|[_ <-]]; [|congruence].
    apply lookup_snoc_Some in H2 as [[_ H2]|[_ <-]]; [|congruence].
    eauto.
  - intros i t1 m H1 Hm1.
    apply lookup_snoc_Some in H1 as [[_ H1]|[_ <-]]; [|congruence]. eauto.
  - intros i m d k H1.
    apply lookup_snoc_Some in H1 as [[_ H1]|[_ Heq]]; [eauto|].
    subst t. discriminate.
  - intros i m e H1.
    apply lookup_snoc_Some in H1 as [[_ H1]|[_ Heq]]; [eauto|].
    subst t. discriminate.
Qed.

(** A call that allocated the next wait group joins in its [select]. *)
Lemma wg_inv_spawn_select queue groups next ts m d k :
  wg_inv_on queue groups next ts ->
  wg m = next ->
  wg_inv_on queue (<[next := 1]> groups) (S next) (ts ++ [AtSelect m d k]).
Proof.
  intros [Hd Hb Hq Hn Hs Hw] Hwg. split; try done.
  - intros i j t1 t2 m1 m2 Hij H1 H2 Hm1 Hm2.
    apply lookup_snoc_Some in H1 as [[_ H1]|[Hi <-]];
      apply lookup_snoc_Some in H2 as [[_ H2]|[Hj <-]].
    + eauto.
    + simpl in Hm2. injection Hm2 as <-.
      pose proof (Hb _ _ _ H1 Hm1). lia.
    + simpl in Hm1. injection Hm1 as <-.
      pose proof (Hb _ _ _ H2 Hm2). lia.
    + lia.
  - intros i t1 m1 H1 Hm1.
    apply lookup_snoc_Some in H1 as [[_ H1]|[_ <-]].
    + pose proof (Hb _ _ _ H1 Hm1). lia.
    + simpl in Hm1. injection Hm1 as <-. lia.
  - intros m1 Hin. destruct (Hq _ Hin) as [Hlt Hc]. split; [lia|].
    rewrite counter_of_insert. destruct (decide _); [lia|done].
  - intros i m1 d1 k1 H1.
    apply lookup_snoc_Some in H1 as [[_ H1]|[_ Heq]].
    + destruct (Hs _ _ _ _ H1) as [Hc Hdis]. split; [|done].
      pose proof (Hb _ _ _ H1 eq_refl).
      rewrite counter_of_insert. destruct (decide _); [lia|done].
    + injection Heq as <- <- <-. split.
      * rewrite counter_of_insert, Hwg. by destruct (decide _).
      * intros m' Hin. destruct (Hq _ Hin). lia.
  - intros i m1 e H1.
    apply lookup_snoc_Some in H1 as [[_ H1]|[_ Heq]]; [eauto|discriminate].
Qed.

(** A call leaves its [select] through the [ctx.Done()] branch, or a
    call returns from [wg.Wait()]: the channel is as before. *)
Lemma wg_inv_leave_select queue groups next ts i m d k tail :
  wg_inv_on queue groups next ts ->
  ts !! i = Some (AtSelect m d k) ->
  wg_inv_on queue groups next (<[i := resume m tail]> ts).
Proof.
  intros [Hd Hb Hq Hn Hs Hw] Hi. split; try done.
  - intros a b t1 t2 m1 m2 Hab H1 H2 Hm1 Hm2.
    apply list_lookup_insert_Some in H1 as [(<- & <- & _)|[Hne1 H1]];
      apply list_lookup_insert_Some in H2 as [(Heq & <- & _)|[Hne2 H2]];
      try done.
    + apply resume_mutation in Hm1 as ->.
      eapply (Hd i b); eauto.
    + apply resume_mutation in Hm2 as ->.
      eapply (Hd a i); eauto.
    + eauto.
  - intros a t1 m1 H1 Hm1.
    apply list_lookup_insert_Some in H1 as [(<- & <- & _)|[Hne1 H1]].
    + apply resume_mutation in Hm1 as ->. eapply Hb; eauto.
    + eauto.
  - intros a m1 d1 k1 H1.
    apply list_lookup_insert_Some in H1 as [(<- & Heq & _)|[Hne1 H1]].
    + by apply resume_not_select in Heq.
    + eauto.
  - intros a m1 e H1.
    apply list_lookup_insert_Some in H1 as [(<- & Heq & _)|[Hne1 H1]].
    + apply resume_wait in Heq as ->.
      destruct (Hs _ _ _ _ Hi) as [_ Hdis].
      intros m' Hin Heq'. by apply Hdis in Hin.
    + eauto.
Qed.

Lemma wg_inv_return queue groups next ts i e :
  wg_inv_on queue groups next ts ->
  wg_inv_on queue groups next (<[i := Returned e]> ts).
Proof.
  intros [Hd Hb Hq Hn Hs Hw]. split; try done.
  - intros a b t1 t2 m1 m2 Hab H1 H2 Hm1 Hm2.
    apply list_lookup_insert_Some in H1 as [(<- & <- & _)|[Hne1 H1]];
      [discriminate|].
    apply list_lookup_insert_Some in H2 as [(<- & <- & _)|[Hne2 H2]];
      [discriminate|].
    eauto.
  - intros a t1 m1 H1 Hm1.
    apply list_lookup_insert_Some in H1 as [(<- & <- & _)|[Hne1 H1]];
      [discriminate|]. eauto.
  - intros a m1 d1 k1 H1.
    apply list_lookup_insert_Some in H1 as [(<- & Heq & _)|[Hne1 H1]];
      [discriminate|]. eauto.
  - intros a m1 e1 H1.
    apply list_lookup_insert_Some in H1 as [(<- & Heq & _)|[Hne1 H1]];
      [discriminate|]. eauto.
Qed.

(** The channel accepts the mutation of a call in its [select]. *)
Lemma wg_inv_send queue groups next ts i m d k :
  wg_inv_on queue groups next ts ->
  ts !! i = Some (AtSelect m d k) ->
  wg_inv_on (queue ++ [m]) groups next (<[i := resume m k]> ts).
Proof.
  intros Hinv Hi.
  pose proof (wg_inv_leave_select _ _ _ _ _ _ _ _ k Hinv Hi)
    as [Hd' Hb' _ _ Hs' Hw'].
  destruct Hinv as [Hd Hb Hq Hn Hs Hw].
  destruct (Hs _ _ _ _ Hi) as [Hc Hdis].
  split; try done.
  - intros m1 Hin. apply elem_of_app in Hin as [Hin|Hin]; [eauto|].
    apply list_elem_of_singleton in Hin as ->. split; [|done].
    eapply Hb; eauto.
  - rewrite fmap_app. apply NoDup_app. split; [done|]. split.
    + intros g Hg Hg'. apply list_elem_of_fmap in Hg as (m1 & -> & Hin).
      simpl in Hg'. apply list_elem_of_singleton in Hg'.
      by apply Hdis in Hin.
    + simpl. apply NoDup_singleton.
  - intros a m1 d1 k1 H1.
    pose proof H1 as H1'.
    apply list_lookup_insert_Some in H1 as [(<- & Heq & _)|[Hne1 H1]].
    { by apply resume_not_select in Heq. }
    destruct (Hs _ _ _ _ H1) as [Hc1 Hdis1]. split; [done|].
    intros m' Hin. apply elem_of_app in Hin as [Hin|Hin]; [eauto|].
    apply list_elem_of_singleton in Hin as ->.
    eapply (Hd i a); eauto.
  - intros a m1 e H1.
    pose proof H1 as H1'.
    apply list_lookup_insert_Some in H1 as [(<- & Heq & _)|[Hne1 H1]].
    + apply resume_wait in Heq as ->.
      intros m' Hin Heq'. apply elem_of_app in Hin as [Hin|Hin].
      * by apply Hdis in Hin.
      * by apply list_elem_of_singleton in Hin.
    + intros m' Hin Heq'. apply elem_of_app in Hin as [Hin|Hin]; [eauto|].
      apply list_elem_of_singleton in Hin as ->.
      exfalso. eapply (Hd i a); eauto.
Qed.

(** A writer takes the oldest mutation and releases its wait group. *)
Lemma wg_inv_writer m0 rest groups next ts v :
  wg_inv_on (m0 :: rest) groups next ts ->
  wg_inv_on rest (<[wg m0 := v]> groups) next ts.
Proof.
  intros [Hd Hb Hq Hn Hs Hw].
  rewrite fmap_cons in Hn. apply NoDup_cons in Hn as [Hfresh Hn].
  split; try done.
  - intros m1 Hin. destruct (Hq m1) as [Hlt Hc]; [by right|].
    split; [done|]. rewrite counter_of_insert.
    destruct (decide _) as [Heq|]; [|done].
    exfalso. apply Hfresh. rewrite Heq. by apply list_elem_of_fmap_2.
  - intros a m1 d1 k1 H1. destruct (Hs _ _ _ _ H1) as [Hc Hdis]. split.
    + rewrite counter_of_insert. destruct (decide _) as [Heq|]; [|done].
      exfalso. eapply (Hdis m0); [by left|done].
    + intros m' Hin. apply Hdis. by right.
  - intros a m1 e H1 m' Hin. eapply Hw; eauto. by right.
Qed.

Section runs.
Context {M : Type} `{ProtoMessage M}.
Implicit Types (s : System) (c : Call (M := M)) (l : label (M := M)).

Lemma wg_inv_step s l s' : wg_inv s -> step s l s' -> wg_inv s'.
Proof.
  unfold wg_inv. intros Hinv Hstep.
  destruct Hstep as [s c w t Hc|s i t w t' Hi Hsel|s i t w t' Hi Hsel
                    |s i t w t' Hi Hw|s io m w Hlive Hturn|s Hdone|s
                    |s dc dirs files mt]; simpl.
  - apply start_call_inv in Hc as [-> [(-> & -> & Hnone)|(-> & -> & Hsel)]].
    + by apply wg_inv_spawn_idle.
    + destruct Hsel as (m & d & k & -> & Hwg). by apply wg_inv_spawn_select.
  - apply select_done_inv in Hsel as (-> & _ & m & d & k & -> & ->).
    by eapply wg_inv_leave_select.
  - apply select_send_inv in Hsel as (m & d & k & -> & -> & ->). simpl.
    by eapply wg_inv_send.
  - apply wait_return_inv in Hw as (-> & m & e & -> & -> & _).
    by apply wg_inv_return.
  - apply writer_turn_inv in Hturn as (rest & Hq & -> & -> & ->).
    rewrite Hq in Hinv. by apply wg_inv_writer.
  - done.
  - done.
  - done.
Qed.

Lemma wg_inv_exec s tr s' : wg_inv s -> exec s tr s' -> wg_inv s'.
Proof.
  intros Hinv Hexec. induction Hexec as [|tr s1 l s2 _ IH Hstep]; [done|].
  by eapply wg_inv_step.
Qed.

(** What [StartWriter] leaves behind when it returns. *)
Lemma StartWriter_inv done config_obj w w' :
  StartWriter done config_obj w = Some w' ->
  writer (self w') = [] /\
  0 < writer_cap (self w') /\
  writer_cap (self w') <= makechan_max /\
  waitgroups w' = waitgroups w /\
  next_wg w' = next_wg w /\
  disk w' = disk w /\
  ctx_done (self w') = done.
Proof.
  unfold StartWriter.
  destruct (Datastore config_obj) as [ds|]; simpl.
  - unfold makechan_accepts.
    destruct (Z.leb_spec (MemcacheWriteMutationBuffer ds) 0).
    + simpl. intros [= <-]. simpl.
      repeat split; try done; unfold makechan_max; lia.
    + destruct (Z.leb_spec 0 (MemcacheWriteMutationBuffer ds)); [|lia].
      destruct (Z.leb_spec (MemcacheWriteMutationBuffer ds) makechan_max);
        simpl; [|discriminate].
      intros [= <-]. simpl. repeat split; try done; lia.
  - intros [= <-]. simpl. repeat split; try done; unfold makechan_max; lia.
Qed.

Lemma wg_inv_boot config_obj files w :
  boot config_obj files = Some w -> wg_inv (mkSystem w []).
Proof.
  unfold boot. destruct (NewMemcacheFileDataStore config_obj); [|discriminate].
  intros Hstart. apply StartWriter_inv in Hstart as (Hq & _ & _ & Hg & Hn & _).
  unfold wg_inv. simpl in *. rewrite Hq, Hg, Hn.
  split; try done; try (intros; by apply NoDup_nil);
    intros; by match goal with Hin : _ ∈ [] |- _ =>
                                 apply not_elem_of_nil in Hin end.
Qed.

Lemma reachable_wg_inv s : reachable (M := M) s -> wg_inv s.
Proof.
  intros (config_obj & files & w & tr & Hboot & Hexec).
  eapply wg_inv_exec; [|done]. by eapply wg_inv_boot.
Qed.

(** What one step does to a given call. *)
Lemma step_thread s l s' i t :
  step s l s' -> threads s !! i = Some t ->
  (threads s' !! i = Some t /\
   l <> LSelectDone i /\ l <> LSelectSend i /\ l <> LWaitReturn i) \/
  (l = LSelectDone i /\ world s' = world s /\
   exists m d k, t = AtSelect m d k /\ threads s' !! i = Some (resume m d)) \/
  (l = LSelectSend i /\
   exists m d k, t = AtSelect m d k /\ threads s' !! i = Some (resume m k) /\
                 world s' = with_writer (writer (self (world s)) ++ [m])
                                        (world s)) \/
  (l = LWaitReturn i /\ world s' = world s /\
   exists m e, t = AtWait m e /\ threads s' !! i = Some (Returned e) /\
               wg_counter (wg m) (world s) = 0).
Proof.
  intros Hstep Hi.
  destruct Hstep as [s c w t0 Hc|s j t0 w t' Hj Hsel|s j t0 w t' Hj Hsel
                    |s j t0 w t' Hj Hw|s io m w Hlive Hturn|s Hdone|s
                    |s dc dirs files mt]; simpl.
  - left. split; [|done]. apply lookup_snoc_Some. left.
    split; [|done]. by eapply lookup_lt_Some.
  - destruct (decide (j = i)) as [->|Hne].
    + right; left. rewrite Hi in Hj. injection Hj as <-.
      apply select_done_inv in Hsel as (-> & _ & m & d & k & -> & ->).
      split; [done|]. split; [done|]. exists m, d, k. split; [done|].
      apply list_lookup_insert_eq. by eapply lookup_lt_Some.
    + left. rewrite list_lookup_insert_ne by done.
      repeat split; [done|congruence..].
  - destruct (decide (j = i)) as [->|Hne].
    + right; right; left. rewrite Hi in Hj. injection Hj as <-.
      apply select_send_inv in Hsel as (m & d & k & -> & -> & ->).
      split; [done|]. exists m, d, k. split; [done|]. split; [|done].
      apply list_lookup_insert_eq. by eapply lookup_lt_Some.
    + left. rewrite list_lookup_insert_ne by done.
      repeat split; [done|congruence..].
  - destruct (decide (j = i)) as [->|Hne].
    + right; right; right. rewrite Hi in Hj. injection Hj as <-.
      apply wait_return_inv in Hw as (-> & m & e & -> & -> & Hz).
      split; [done|]. split; [done|]. exists m, e. split; [done|].
      split; [|done].
      apply list_lookup_insert_eq. by eapply lookup_lt_Some.
    + left. rewrite list_lookup_insert_ne by done.
      repeat split; [done|congruence..].
  - by left.
  - by left.
  - by left.
  - by left.
Qed.

(** A wait group that is already allocated keeps its counter unless a
    writer processes a queued mutation that names it. *)
Lemma step_counter s l s' g :
  step s l s' -> (g < next_wg (world s))%nat ->
  wg_counter g (world s') = wg_counter g (world s) \/
  exists m io, l = LWriter m io /\ wg m = g /\ m ∈ writer (self (world s)).
Proof.
  intros Hstep Hlt.
  destruct Hstep as [s c w t0 Hc|s j t0 w t' Hj Hsel|s j t0 w t' Hj Hsel
                    |s j t0 w t' Hj Hw|s io m w Hlive Hturn|s Hdone|s
                    |s dc dirs files mt]; simpl.
  - left. unfold wg_counter.
    apply start_call_inv in Hc as [_ [(-> & _)|(-> & _)]]; [done|].
    rewrite counter_of_insert. destruct (decide _); [lia|done].
  - apply select_done_inv in Hsel as (-> & _). by left.
  - apply select_send_inv in Hsel as (m & d & k & -> & -> & ->). by left.
  - apply wait_return_inv in Hw as (-> & _). by left.
  - apply writer_turn_inv in Hturn as (rest & Hq & _ & Hg & _).
    destruct (decide (wg m = g)) as [Heq|Hne].
    + right. exists m, io. rewrite Hq. repeat split; [done|by left].
    + left. unfold wg_counter. rewrite Hg, counter_of_insert.
      by destruct (decide _).
  - by left.
  - by left.
  - by left.
Qed.

(** A mutation gets into the channel only through the send branch of
    the call that holds it. *)
Lemma step_queue s l s' m :
  step s l s' -> m ∈ writer (self (world s')) ->
  m ∈ writer (self (world s)) \/
  exists i d k, l = LSelectSend i /\ threads s !! i = Some (AtSelect m d k).
Proof.
  intros Hstep Hin.
  destruct Hstep as [s c w t0 Hc|s j t0 w t' Hj Hsel|s j t0 w t' Hj Hsel
                    |s j t0 w t' Hj Hw|s io m0 w Hlive Hturn|s Hdone|s
                    |s dc dirs files mt]; simpl in Hin.
  - left. apply start_call_inv in Hc as [Hq _]. by rewrite <- Hq.
  - apply select_done_inv in Hsel as (-> & _). by left.
  - apply select_send_inv in Hsel as (m1 & d & k & -> & -> & ->).
    simpl in Hin. apply elem_of_app in Hin as [Hin|Hin]; [by left|].
    apply list_elem_of_singleton in Hin as ->. right. eauto.
  - apply wait_return_inv in Hw as (-> & _). by left.
  - left. apply writer_turn_inv in Hturn as (rest & Hq & Hq' & _).
    rewrite Hq. right. by rewrite <- Hq'.
  - by left.
  - by left.
  - by left.
Qed.

End runs.

(** ** Write-through mode *)

Section write_through.
Context {M : Type} `{ProtoMessage M}.
Implicit Types (s : System) (c : Call (M := M)) (l : label (M := M)).









(** C4 at a failing input.  Take a store that has been running, and a
    call of [DeleteSubject] under a configuration whose mutation buffer
    is negative.  If the call leaves its [select] through the
    [ctx.Done()] branch, then in every run that follows it is still in
    [wg.Wait()]: its mutation was never queued, the counter of its wait
    group stays at one, and the wait cannot return. *)
Theorem DeleteSubject_cancelled_waits_forever
    (s0 s1 s2 s3 : System) (config_obj : Config) (ds : DatastoreConfig)
    (urn : DSPathSpec) (tr : list (label (M := M))) :
  reachable (M := M) s0 ->
  Datastore config_obj = Some ds ->
  MemcacheWriteMutationBuffer ds < 0 ->
  step s0 (LCall (CallDeleteSubject config_obj urn)) s1 ->
  step s1 (LSelectDone (length (threads s0))) s2 ->
  exec s2 tr s3 ->
  let mutation :=
    mkMutation MUTATION_OP_DEL_SUBJECT urn (next_wg (world s0)) [] None in
  threads s3 !! (length (threads s0)) = Some (AtWait mutation None) /\
  wg_counter (wg mutation) (world s3) = 1 /\
  (mutation ∉ writer (self (world s3))) /\
  wait_return (world s3) (AtWait mutation None) = None.
Proof.
  intros Hreach Hds Hneg Hcall Hdone Hexec mutation.
  pose proof (reachable_wg_inv _ Hreach) as Hinv0.
  pose proof (wg_inv_step _ _ _ Hinv0 Hcall) as Hinv1.
  pose proof (wg_inv_step _ _ _ Hinv1 Hdone) as Hinv2.
  assert (threads s1 !! (length (threads s0)) =
          Some (AtSelect mutation (TailWait None) (TailWait None))) as Hi1.
  { inversion Hcall as [s c' w t Hc| | | | | | |]; subst. simpl in *.
    unfold DeleteSubject in Hc.
    destruct (cache_DeleteSubject urn (cache (self (world s0))))
      as [c0 err] eqn:Hdel.
    assert (err = None) as ->.
    { unfold cache_DeleteSubject in Hdel.
      destruct (DirectoryLRUCache_Get _ _) in Hdel. by injection Hdel. }
    simpl in Hc. injection Hc as <- <-.
    unfold wait_if_negative_buffer. rewrite Hds.
    destruct (Z.ltb_spec (MemcacheWriteMutationBuffer ds) 0); [|lia].
    apply lookup_snoc_Some. by right. }
  destruct (inv_select _ _ _ _ Hinv1 _ _ _ _ Hi1) as [Hone Hdis].
  assert (threads s2 !! (length (threads s0)) = Some (AtWait mutation None) /\
          world s2 = world s1) as [Hi2 Hw2].
  { destruct (step_thread _ _ _ _ _ Hdone Hi1)
      as [(_ & Hl & _)|[(_ & Hw & m' & d & k & Heq & Ht')
         |[(Hl & _)|(Hl & _)]]]; try done.
    injection Heq as <- <- <-. done. }
  assert (wg_inv s3 /\
          threads s3 !! (length (threads s0)) = Some (AtWait mutation None) /\
          wg_counter (wg mutation) (world s3) = 1 /\
          forall m', m' ∈ writer (self (world s3)) -> wg m' <> wg mutation)
    as (_ & Ht3 & Hc3 & Hq3).
  { induction Hexec as [|tr s' l s3 Hexec IH Hstep].
    { rewrite Hw2. done. }
    destruct IH as (Hinv' & Ht & Hc & Hq).
    pose proof (inv_thread_bound _ _ _ _ Hinv' _ _ _ Ht eq_refl) as Hlt.
    split; [by eapply wg_inv_step|].
    assert (threads s3 !! (length (threads s0)) = Some (AtWait mutation None))
      as Ht'.
    { destruct (step_thread _ _ _ _ _ Hstep Ht)
        as [(Ht' & _)|[(_ & _ & m' & d & k & Heq & _)
           |[(_ & m' & d & k & Heq & _)
           |(_ & _ & m' & e' & Heq & _ & Hzero)]]]; try done.
      injection Heq as <- <-. lia. }
    split; [done|]. split.
    - destruct (step_counter _ _ _ _ Hstep Hlt)
        as [Hsame|(m0 & io & -> & Hwg & Hin)]; [by rewrite Hsame|].
      by apply Hq in Hin.
    - intros m' Hin.
      destruct (step_queue _ _ _ _ Hstep Hin)
        as [Hold|(i & d & k & -> & Hsel)]; [by apply Hq|].
      destruct (decide (i = length (threads s0))) as [->|Hne].
      + rewrite Ht in Hsel. discriminate.
      + eapply (inv_distinct _ _ _ _ Hinv' i (length (threads s0))); eauto. }
  repeat split; try done.
  - intros Hin. by apply Hq3 in Hin.
  - simpl. destruct (decide _) as [Hz|]; [|done].
    change (wg_counter (wg mutation) (world s3) = 0) in Hz. lia.
Qed.

End write_through.









Lemma DeleteSubject_cancelled_waits_forever_witness :
  threads delete_waiting !! 0%nat = Some (AtWait delete_mutation None) /\
  wg_counter (wg delete_mutation) (world delete_waiting) = 1 /\
  (delete_mutation ∉ writer (self (world delete_waiting))) /\
  wait_return (world delete_waiting) (AtWait delete_mutation None) = None.
Proof.
  eapply (DeleteSubject_cancelled_waits_forever
            cancelled_system delete_started delete_waiting delete_waiting
            write_through_config (mkDatastoreConfig 0 (-1) 0 0 0 0)
            sample_urn []).
  - exists write_through_config, ∅, wt_world, [LCancel].
    split; [reflexivity|].
    eapply (exec_snoc _ []); [apply exec_nil|]. apply step_cancel.
  - reflexivity.
  - simpl. lia.
  - apply step_call. reflexivity.
  - eapply step_select_done; reflexivity.
  - apply exec_nil.
Defined.

(** ** The read path within the item cap *)

Lemma cache_GetBuffer_result urn c :
  (cache_GetBuffer urn c).2 =
  match data_peek urn (data_cache c) with
  | Some data => Ok data
  | None => Err ErrNotExist
  end.
Proof.
  unfold cache_GetBuffer, DataLRUCache_Get, data_peek.
  pose proof (Get_Peek urn (data_lru (data_cache c))) as HP.
  destruct (LRU.Get urn (data_lru (data_cache c))) as [v l]. simpl in HP.
  subst v. by destruct (LRU.Peek urn (data_lru (data_cache c))).
Qed.

Lemma cache_GetBuffer_cache urn c :
  (forall k, data_peek k (data_cache (cache_GetBuffer urn c).1)
             = data_peek k (data_cache c)) /\
  data_max_item_size (data_cache (cache_GetBuffer urn c).1)
  = data_max_item_size (data_cache c) /\
  LRU.max_size (data_lru (data_cache (cache_GetBuffer urn c).1))
  = LRU.max_size (data_lru (data_cache c)) /\
  get_dir_metadata (cache_GetBuffer urn c).1 = get_dir_metadata c.
Proof.
  unfold cache_GetBuffer, DataLRUCache_Get, data_peek.
  pose proof (fun k => Peek_Get urn k (data_lru (data_cache c))) as HP.
  unfold LRU.Get in *.
  destruct (LRU.assoc urn (LRU.items (data_lru (data_cache c)))); simpl in *;
    done.
Qed.

Lemma data_cache_SetData_above_cap urn data c :
  data_max_item_size (data_cache c) < Z.of_nat (length data) ->
  data_cache (cache_SetData urn data c).1 = data_cache c.
Proof.
  intros Hlen. unfold cache_SetData.
  destruct (get_dir_metadata c (dir_cache c) (Dir urn)) as [dirs md]. simpl.
  unfold DataLRUCache_Set.
  destruct (Z.gtb_spec (Z.of_nat (length data))
                       (data_max_item_size (data_cache c))); [done|lia].
Qed.

Section read_path.
Context {M : Type} `{ProtoMessage M}.

Lemma cache_GetSubject_result urn c :
  (cache_GetSubject (M := M) urn c).2 =
  match data_peek urn (data_cache c) with
  | Some data => Unmarshal urn data
  | None => Err ErrNotExist
  end /\
  (cache_GetSubject (M := M) urn c).1 = (cache_GetBuffer urn c).1.
Proof.
  unfold cache_GetSubject.
  pose proof (cache_GetBuffer_result urn c) as HR.
  destruct (cache_GetBuffer urn c) as [c' r]. simpl in HR. subst r.
  by destruct (data_peek urn (data_cache c)).
Qed.

(** A file that is on disk, absent from the data cache and within the
    caps is read, counted as a miss, cached and decoded. *)
Lemma GetSubject_miss_within_cap urn data w :
  data_peek urn (data_cache (cache (self w))) = None ->
  disk w !! urn = Some data ->
  Z.of_nat (length data) <= data_max_item_size (data_cache (cache (self w))) ->
  0 < LRU.max_size (data_lru (data_cache (cache (self w)))) ->
  (GetSubject (M := M) IoOk urn w).2 = Unmarshal urn data /\
  metricDataLRUMiss (metrics (GetSubject (M := M) IoOk urn w).1)
  = metricDataLRUMiss (metrics w) + 1 /\
  data_peek urn (data_cache (cache (self (GetSubject (M := M) IoOk urn w).1)))
  = Some data.
Proof.
  intros Hmiss Hfile Hlen Hcap. unfold GetSubject.
  destruct (cache_GetSubject_result urn (cache (self w))) as [Hr Hc].
  destruct (cache_GetBuffer_cache urn (cache (self w)))
    as (Hpeek & Hitem & Hsize & _).
  destruct (cache_GetSubject urn (cache (self w))) as [c1 r1].
  simpl in Hr, Hc. subst c1 r1. rewrite Hmiss. simpl. rewrite Hfile.
  set (c1 := (cache_GetBuffer urn (cache (self w))).1) in *.
  pose proof (data_peek_SetData urn data c1) as Hset.
  rewrite Hitem, Hsize in Hset. specialize (Hset Hlen Hcap).
  destruct (cache_SetData urn data c1) as [c2 e2]. simpl in Hset |- *.
  destruct (cache_GetSubject_result urn c2) as [Hr2 Hc2].
  destruct (cache_GetBuffer_cache urn c2) as (Hpeek2 & _).
  destruct (cache_GetSubject urn c2) as [c3 r3]. simpl in Hr2, Hc2 |- *.
  subst c3 r3. rewrite Hset. repeat split; try done.
  by rewrite Hpeek2.
Qed.

(** A file that is on disk, absent from the data cache and above the
    per-item cap is read and counted as a miss, is not retained by
    [SetData], and is then reported as not-found by the second cache
    lookup. *)
Lemma GetSubject_miss_above_cap urn data w :
  data_peek urn (data_cache (cache (self w))) = None ->
  disk w !! urn = Some data ->
  data_max_item_size (data_cache (cache (self w))) < Z.of_nat (length data) ->
  (GetSubject (M := M) IoOk urn w).2 = Err ErrNotExist /\
  metricDataLRUMiss (metrics (GetSubject (M := M) IoOk urn w).1)
  = metricDataLRUMiss (metrics w) + 1 /\
  (GetBuffer IoOk urn w).2 = Ok data.
Proof.
  intros Hmiss Hfile Hlen. split; [|split].
  - unfold GetSubject.
    destruct (cache_GetSubject_result urn (cache (self w))) as [Hr Hc].
    destruct (cache_GetBuffer_cache urn (cache (self w)))
      as (Hpeek & Hitem & Hsize & _).
    destruct (cache_GetSubject urn (cache (self w))) as [c1 r1].
    simpl in Hr, Hc. subst c1 r1. rewrite Hmiss. simpl. rewrite Hfile.
    set (c1 := (cache_GetBuffer urn (cache (self w))).1) in *.
    pose proof (data_cache_SetData_above_cap urn data c1) as Hset.
    rewrite Hitem in Hset. specialize (Hset Hlen).
    destruct (cache_SetData urn data c1) as [c2 e2]. simpl in Hset |- *.
    destruct (cache_GetSubject_result urn c2) as [Hr2 _].
    destruct (cache_GetSubject urn c2) as [c3 r3]. simpl in Hr2 |- *.
    subst r3. by rewrite Hset, Hpeek, Hmiss.
  - unfold GetSubject.
    destruct (cache_GetSubject_result urn (cache (self w))) as [Hr Hc].
    destruct (cache_GetSubject urn (cache (self w))) as [c1 r1].
    simpl in Hr, Hc. subst c1 r1. rewrite Hmiss. simpl. rewrite Hfile.
    destruct (cache_SetData urn data _) as [c2 e2]. simpl.
    by destruct (cache_GetSubject urn c2) as [c3 r3].
  - unfold GetBuffer.
    pose proof (cache_GetBuffer_result urn (cache (self w))) as Hr.
    destruct (cache_GetBuffer urn (cache (self w))) as [c1 r1].
    simpl in Hr. subst r1. rewrite Hmiss. simpl. rewrite Hfile.
    by destruct (cache_SetData urn data c1).
Qed.

(** A path that is neither cached nor on disk is reported as
    not-found. *)
Lemma GetSubject_missing_file urn w :
  data_peek urn (data_cache (cache (self w))) = None ->
  disk w !! urn = None ->
  (GetSubject (M := M) IoOk urn w).2 = Err ErrNotExist /\
  (GetBuffer IoOk urn w).2 = Err ErrNotExist.
Proof.
  intros Hmiss Hfile. split.
  - unfold GetSubject.
    destruct (cache_GetSubject_result urn (cache (self w))) as [Hr Hc].
    destruct (cache_GetSubject urn (cache (self w))) as [c1 r1].
    simpl in Hr, Hc. subst c1 r1. rewrite Hmiss. simpl. by rewrite Hfile.
  - unfold GetBuffer.
    pose proof (cache_GetBuffer_result urn (cache (self w))) as Hr.
    destruct (cache_GetBuffer urn (cache (self w))) as [c1 r1].
    simpl in Hr. subst r1. rewrite Hmiss. simpl. by rewrite Hfile.
Qed.

End read_path.

(** * Further properties *)

(** ** The expiration policy *)

Lemma substring_whole (s : string) :
  String.substring 0 (String.length s) s = s.
Proof. induction s as [|c s IH]; simpl; [done|by rewrite IH]. Qed.

Lemma string_split_at (n : nat) (s : string) :
  (n <= String.length s)%nat ->
  s = String.append (String.substring 0 n s)
                    (String.substring n (String.length s - n) s).
Proof.
  revert n. induction s as [|c s IH]; intros n Hn.
  - destruct n; [done|simpl in Hn; lia].
  - destruct n as [|n]; simpl.
    + by rewrite substring_whole.
    + change (String c s =
              String c (String.append (String.substring 0 n s)
                          (String.substring n (String.length s - n) s))).
      f_equal. apply IH. simpl in Hn. lia.
Qed.

Lemma substring_skip_prefix (p s : string) (n : nat) :
  String.substring (String.length p) n (String.append p s)
  = String.substring 0 n s.
Proof. induction p as [|c p IH]; simpl; [by destruct n, s|done]. Qed.

Lemma string_length_append (p s : string) :
  String.length (String.append p s) = (String.length p + String.length s)%nat.
Proof. induction p as [|c p IH]; simpl; [done|by rewrite IH]. Qed.

(** X1.  The expiration policy refuses to expire exactly the keys that
    end in [ping.db]: it answers false for a key if and only if the key
    is some prefix followed by [ping.db]. *)
Theorem ExpirationPolicy_false_iff_ping_suffix (key : string) :
  ExpirationPolicy key = false <->
  exists prefix, key = String.append prefix "ping.db".
Proof.
  unfold ExpirationPolicy. rewrite negb_false_iff, bool_decide_eq_true.
  split.
  - intros [Hsub Hlen].
    exists (String.substring 0 (String.length key - String.length "ping.db") key).
    pose proof (string_split_at (String.length key - String.length "ping.db")
                                key) as Hsplit.
    replace (String.length key
             - (String.length key - String.length "ping.db"))%nat
      with (String.length "ping.db") in Hsplit by lia.
    rewrite Hsub in Hsplit. apply Hsplit. lia.
  - intros [prefix ->]. rewrite string_length_append. split; [|lia].
    replace (String.length prefix + String.length "ping.db"
             - String.length "ping.db")%nat
      with (String.length prefix) by lia.
    by rewrite substring_skip_prefix.
Qed.

(** ** Start and construction *)

(** X2.  [StartWriter] panics exactly when the channel capacity it asks
    for (the configured one when that is positive, and 1000 otherwise,
    also for a negative write-through value or without a datastore
    section) is more than [make] accepts.  When it returns, the channel
    is empty and has that capacity, the context is the one handed in,
    the cache keeps its two caches and its resolver and has been given
    the expiry window and [ExpirationPolicy], and the files are
    untouched.  The window is the configured number of seconds, 600 when
    that is zero, as long as it fits a [time.Duration]. *)
Theorem StartWriter_channel_or_panic
    (done : bool) (config_obj : Config) (w : World) :
  let capacity :=
    match Datastore config_obj with
    | Some ds =>
        if 0 <? MemcacheWriteMutationBuffer ds
        then MemcacheWriteMutationBuffer ds else 1000
    | None => 1000
    end in
  let seconds :=
    match Datastore config_obj with
    | Some ds =>
        if MemcacheExpirationSec ds =? 0 then 600
        else MemcacheExpirationSec ds
    | None => 600
    end in
  match StartWriter done config_obj w with
  | None => makechan_max < capacity
  | Some w' =>
      0 < capacity <= makechan_max /\
      writer (self w') = [] /\
      writer_cap (self w') = capacity /\
      ctx_done (self w') = done /\
      data_cache (cache (self w')) = data_cache (cache (self w)) /\
      dir_cache (cache (self w')) = dir_cache (cache (self w)) /\
      get_dir_metadata (cache (self w')) = get_dir_metadata (cache (self w)) /\
      check_expiration (cache (self w')) = Some ExpirationPolicy /\
      expiry_timeout (cache (self w')) = Duration_of_seconds seconds /\
      (0 <= seconds <= 9223372036 ->
       expiry_timeout (cache (self w')) = seconds * 1000000000) /\
      disk w' = disk w
  end.
Proof.
  assert (forall seconds,
            0 <= seconds <= 9223372036 ->
            Duration_of_seconds seconds = seconds * 1000000000) as Hfits.
  { intros seconds Hs. unfold Duration_of_seconds, int64_wrap, time_Second.
    rewrite (Z.mod_small (seconds + 2 ^ 63)) by lia.
    rewrite Z.mod_small by lia. lia. }
  unfold StartWriter. destruct (Datastore config_obj) as [ds|]; simpl.
  - unfold makechan_accepts.
    destruct (Z.leb_spec (MemcacheWriteMutationBuffer ds) 0),
             (Z.ltb_spec 0 (MemcacheWriteMutationBuffer ds)); try lia.
    + simpl. repeat split; try done; try (unfold makechan_max; lia).
      apply Hfits.
    + destruct (Z.leb_spec 0 (MemcacheWriteMutationBuffer ds)); [|lia].
      destruct (Z.leb_spec (MemcacheWriteMutationBuffer ds) makechan_max);
        simpl; [|done].
      repeat split; try done. apply Hfits.
  - repeat split; try done; unfold makechan_max; lia.
Qed.

(** X3.  A negative writer count starts no writer at all: when
    [StartWriter] returns, the number of writers and the idle-writers
    gauge are as before, so nothing will ever take a mutation off the
    channel; and it returns unless the configured channel capacity is
    more than [make] accepts. *)
Theorem StartWriter_negative_writers_starts_none
    (done : bool) (config_obj : Config) (ds : DatastoreConfig) (w : World) :
  Datastore config_obj = Some ds ->
  MemcacheWriteMutationWriters ds < 0 ->
  match StartWriter done config_obj w with
  | Some w' =>
      workers w' = workers w /\
      metricIdleWriters (metrics w') = metricIdleWriters (metrics w)
  | None => makechan_max < MemcacheWriteMutationBuffer ds
  end.
Proof.
  intros Hds Hneg. unfold StartWriter. rewrite Hds. simpl.
  unfold makechan_accepts.
  destruct (Z.eqb_spec (MemcacheWriteMutationWriters ds) 0); [lia|].
  replace (Z.to_nat (MemcacheWriteMutationWriters ds)) with 0%nat by lia.
  destruct (Z.leb_spec (MemcacheWriteMutationBuffer ds) 0).
  - simpl. split; lia.
  - destruct (Z.leb_spec 0 (MemcacheWriteMutationBuffer ds)); [|lia].
    destruct (Z.leb_spec (MemcacheWriteMutationBuffer ds) makechan_max);
      simpl; [split; lia|done].
Qed.

Lemma StartWriter_negative_writers_starts_none_witness :
  workers negative_writers_world = workers zero_world /\
  metricIdleWriters (metrics negative_writers_world)
  = metricIdleWriters (metrics zero_world).
Proof.
  apply (StartWriter_negative_writers_starts_none
           false negative_writers_config (mkDatastoreConfig 0 0 (-1) 0 0 0)
           zero_world); [reflexivity|simpl; lia].
Defined.

(** X4.  A configuration without a datastore section is accepted by
    [StartWriter], which returns and uses its defaults (600 seconds, 100
    writers, each counted idle), while the constructor panics on it; the
    constructor returns a store for every configuration that has the
    section. *)
Theorem nil_datastore_starts_but_does_not_construct
    (done : bool) (config_obj : Config) (w : World) :
  (Datastore config_obj = None <-> NewMemcacheFileDataStore config_obj = None) /\
  (Datastore config_obj = None ->
   exists w',
     StartWriter done config_obj w = Some w' /\
     expiry_timeout (cache (self w')) = 600 * time_Second /\
     workers w' = (workers w + 100)%nat /\
     metricIdleWriters (metrics w') = metricIdleWriters (metrics w) + 100).
Proof.
  split.
  - unfold NewMemcacheFileDataStore.
    destruct (Datastore config_obj); split; intros; done.
  - intros Hnil. unfold StartWriter. rewrite Hnil. simpl.
    eexists. split; [reflexivity|]. simpl. done.
Qed.

(** X5.  Every store the constructor returns has a data cache with
    positive caps: each of its two sizes that is configured positive is
    the cap used, and 10,000 entries and 65,536 bytes are used
    otherwise.  Both caches and the channel start empty, and the
    resolver is the file backed one. *)
Theorem constructor_data_caps_are_positive
    (config_obj : Config) (ds : DatastoreConfig) (s : MemcacheFileDataStore) :
  Datastore config_obj = Some ds ->
  NewMemcacheFileDataStore config_obj = Some s ->
  0 < LRU.max_size (data_lru (data_cache (cache s))) /\
  0 < data_max_item_size (data_cache (cache s)) /\
  LRU.max_size (data_lru (data_cache (cache s)))
  = (if 0 <? MemcacheDatastoreMaxSize ds
     then MemcacheDatastoreMaxSize ds else 10000) /\
  data_max_item_size (data_cache (cache s))
  = (if 0 <? MemcacheDatastoreMaxItemSize ds
     then MemcacheDatastoreMaxItemSize ds else 65536) /\
  LRU.items (data_lru (data_cache (cache s))) = [] /\
  LRU.items (dir_lru (dir_cache (cache s))) = [] /\
  get_dir_metadata (cache s) = get_file_dir_metadata /\
  writer s = [].
Proof.
  intros Hds. unfold NewMemcacheFileDataStore. rewrite Hds.
  intros [= <-]. simpl.
  destruct (Z.gtb_spec (MemcacheDatastoreMaxSize ds) 0),
           (Z.gtb_spec (MemcacheDatastoreMaxItemSize ds) 0),
           (Z.ltb_spec 0 (MemcacheDatastoreMaxSize ds)),
           (Z.ltb_spec 0 (MemcacheDatastoreMaxItemSize ds));
    repeat split; try done; lia.
Qed.

Lemma constructor_data_caps_are_positive_witness :
  0 < LRU.max_size (data_lru (data_cache (cache sized_store))) /\
  0 < data_max_item_size (data_cache (cache sized_store)) /\
  LRU.max_size (data_lru (data_cache (cache sized_store)))
  = (if 0 <? 200 then 200 else 10000) /\
  data_max_item_size (data_cache (cache sized_store))
  = (if 0 <? 4096 then 4096 else 65536) /\
  LRU.items (data_lru (data_cache (cache sized_store))) = [] /\
  LRU.items (dir_lru (dir_cache (cache sized_store))) = [] /\
  get_dir_metadata (cache sized_store) = get_file_dir_metadata /\
  writer sized_store = [].
Proof.
  apply (constructor_data_caps_are_positive
           sized_config (mkDatastoreConfig 30 5 2 200 4096 50) sized_store);
    reflexivity.
Defined.

(** ** A writer's turn *)

Lemma process_mutation_channel io mutation w :
  writer (self (process_mutation io mutation w)) = writer (self w) /\
  writer_cap (self (process_mutation io mutation w)) = writer_cap (self w) /\
  ctx_done (self (process_mutation io mutation w)) = ctx_done (self w) /\
  next_wg (process_mutation io mutation w) = next_wg w /\
  workers (process_mutation io mutation w) = workers w /\
  data_cache (cache (self (process_mutation io mutation w)))
  = data_cache (cache (self w)).
Proof.
  unfold process_mutation.
  destruct (op mutation), io, (completion mutation); simpl; done.
Qed.

(** X6.  A writer that receives a DELETE mutation removes the file
    through the backend (so that, when the backend succeeds, the path is
    gone from the disk), releases the mutation's wait group and takes
    the mutation off the channel.  It never runs a completion callback,
    even for a mutation that carries one. *)
Theorem writer_delete_turn
    (io : io_outcome) (mutation : Mutation) (rest : list Mutation) (w : World) :
  writer (self w) = mutation :: rest ->
  op mutation = MUTATION_OP_DEL_SUBJECT ->
  exists w',
    writer_turn io w = Some (mutation, w') /\
    disk w' = (file_based_DeleteSubject io (urn mutation) (disk w)).1 /\
    (io = IoOk -> disk w' !! urn mutation = None) /\
    callbacks_run w' = callbacks_run w /\
    wg_counter (wg mutation) w' = wg_counter (wg mutation) w - 1 /\
    writer (self w') = rest.
Proof.
  intros Hq Hop. unfold writer_turn. rewrite Hq.
  eexists. split; [reflexivity|].
  unfold process_mutation. rewrite Hop.
  destruct io; simpl; unfold wg_counter, counter_of; simpl;
    rewrite lookup_insert_eq; simpl; repeat split; try done.
  intros _. apply lookup_delete_eq.
Qed.

Lemma writer_delete_turn_witness :
  exists w',
    writer_turn IoOk pending_delete_world
    = Some (mkMutation MUTATION_OP_DEL_SUBJECT sample_urn 0 [] (Some 7%nat),
            w') /\
    disk w' = (file_based_DeleteSubject IoOk sample_urn
                                        (disk pending_delete_world)).1 /\
    (IoOk = IoOk -> disk w' !! sample_urn = None) /\
    callbacks_run w' = callbacks_run pending_delete_world /\
    wg_counter 0 w' = wg_counter 0 pending_delete_world - 1 /\
    writer (self w') = [].
Proof.
  apply (writer_delete_turn
           IoOk (mkMutation MUTATION_OP_DEL_SUBJECT sample_urn 0 []
                            (Some 7%nat))
           [] pending_delete_world); vm_compute; reflexivity.
Defined.

(** X7.  A writer's turn touches only what belongs to its mutation: the
    data cache, the channel, its capacity, the cancellation state, the
    wait group allocator and the number of writers are as before, the
    metrics are as before (the idle gauge goes down and up again), every
    other wait group keeps its counter and every other file its
    content. *)
Theorem writer_turn_touches_only_its_mutation
    (io : io_outcome) (mutation : Mutation) (w : World) :
  data_cache (cache (self (process_mutation io mutation w)))
  = data_cache (cache (self w)) /\
  writer (self (process_mutation io mutation w)) = writer (self w) /\
  writer_cap (self (process_mutation io mutation w)) = writer_cap (self w) /\
  ctx_done (self (process_mutation io mutation w)) = ctx_done (self w) /\
  next_wg (process_mutation io mutation w) = next_wg w /\
  workers (process_mutation io mutation w) = workers w /\
  metrics (process_mutation io mutation w) = metrics w /\
  (forall g, g <> wg mutation ->
             wg_counter g (process_mutation io mutation w) = wg_counter g w) /\
  (forall u, u <> urn mutation ->
             disk (process_mutation io mutation w) !! u = disk w !! u).
Proof.
  unfold process_mutation.
  destruct (metrics w) as [a b c d e] eqn:Hm.
  destruct (op mutation), io, (completion mutation); simpl;
    rewrite ?Hm; simpl; repeat split; try done;
    try (f_equal; lia);
    try (intros g Hg; unfold wg_counter; simpl;
         rewrite counter_of_insert; by destruct (decide _));
    try (intros u Hu; by rewrite ?lookup_insert_ne, ?lookup_delete_ne).
Qed.

Lemma drain_order ios w :
  (drain ios w).1 = take (length ios) (writer (self w)) /\
  writer (self (drain ios w).2) = drop (length ios) (writer (self w)).
Proof.
  revert w. induction ios as [|io ios IH]; intros w; simpl.
  - by rewrite drop_0.
  - unfold writer_turn. destruct (writer (self w)) as [|m rest] eqn:Hq.
    + simpl. by rewrite Hq.
    + specialize (IH (process_mutation io m (with_writer rest w))).
      destruct (process_mutation_channel io m (with_writer rest w))
        as (Hw & _).
      rewrite Hw in IH. simpl in IH.
      destruct (drain ios (process_mutation io m (with_writer rest w)))
        as [done w'']. simpl in *. destruct IH as [-> ->]. done.
Qed.

(** X8.  The channel is first in, first out.  Writers taking turns one
    after another process the queued mutations oldest first and leave
    the rest in place, and a mutation that a [select] sends is placed
    behind everything already queued. *)
Theorem writers_take_mutations_in_order
    (ios : list io_outcome) (mutation : Mutation) (on_done on_sent : Tail)
    (w : World) :
  (drain ios w).1 = take (length ios) (writer (self w)) /\
  writer (self (drain ios w).2) = drop (length ios) (writer (self w)) /\
  (Z.of_nat (length (writer (self w))) < writer_cap (self w) ->
   exists w1,
     select_send w (AtSelect mutation on_done on_sent)
     = Some (w1, resume mutation on_sent) /\
     (drain ios w1).1 = take (length ios) (writer (self w) ++ [mutation])).
Proof.
  destruct (drain_order ios w) as [H1 H2]. split; [done|]. split; [done|].
  intros Hroom. simpl.
  destruct (Z.ltb_spec (Z.of_nat (length (writer (self w))))
                       (writer_cap (self w))); [|lia].
  eexists. split; [reflexivity|].
  by destruct (drain_order ios (with_writer (writer (self w) ++ [mutation]) w)).
Qed.

(** ** Reads *)

(** X9.  [GetBuffer] on a cached path returns the cached bytes and counts
    a hit; the backend is not consulted, whatever it would answer, so
    the files and the miss counter are as before and the entry stays
    cached. *)
Theorem GetBuffer_hit_ignores_disk
    (io : io_outcome) (urn : DSPathSpec) (data : bytes) (w : World) :
  data_peek urn (data_cache (cache (self w))) = Some data ->
  (GetBuffer io urn w).2 = Ok data /\
  disk (GetBuffer io urn w).1 = disk w /\
  metricDataLRUHit (metrics (GetBuffer io urn w).1)
  = metricDataLRUHit (metrics w) + 1 /\
  metricDataLRUMiss (metrics (GetBuffer io urn w).1)
  = metricDataLRUMiss (metrics w) /\
  data_peek urn (data_cache (cache (self (GetBuffer io urn w).1))) = Some data.
Proof.
  intros Hhit. unfold GetBuffer.
  pose proof (cache_GetBuffer_result urn (cache (self w))) as Hr.
  destruct (cache_GetBuffer_cache urn (cache (self w))) as (Hpeek & _).
  destruct (cache_GetBuffer urn (cache (self w))) as [c1 r1].
  simpl in Hr, Hpeek. subst r1. rewrite Hhit. simpl.
  repeat split; try done. by rewrite Hpeek.
Qed.

Lemma GetBuffer_hit_ignores_disk_witness :
  (GetBuffer (IoFail (ErrIO "disk gone")) sample_urn cached_world).2
  = Ok sample_payload /\
  disk (GetBuffer (IoFail (ErrIO "disk gone")) sample_urn cached_world).1
  = disk cached_world /\
  metricDataLRUHit
    (metrics (GetBuffer (IoFail (ErrIO "disk gone")) sample_urn cached_world).1)
  = metricDataLRUHit (metrics cached_world) + 1 /\
  metricDataLRUMiss
    (metrics (GetBuffer (IoFail (ErrIO "disk gone")) sample_urn cached_world).1)
  = metricDataLRUMiss (metrics cached_world) /\
  data_peek sample_urn
    (data_cache (cache (self (GetBuffer (IoFail (ErrIO "disk gone"))
                                        sample_urn cached_world).1)))
  = Some sample_payload.
Proof.
  apply (GetBuffer_hit_ignores_disk (IoFail (ErrIO "disk gone")) sample_urn
                                    sample_payload cached_world).
  vm_compute. reflexivity.
Defined.

Section reads.
Context {M : Type} `{ProtoMessage M}.

(** X10.  [GetSubject] on a cached path returns what decoding the cached
    bytes gives, a message or the decoder's error alike, and counts a
    hit: a payload that does not decode is not looked up on disk.  The
    only decoding result that is not returned as it is, is a not-exist
    error. *)
Theorem GetSubject_hit_returns_decoding
    (io : io_outcome) (urn : DSPathSpec) (data : bytes) (w : World) :
  data_peek urn (data_cache (cache (self w))) = Some data ->
  IsNotExist (result_err (Unmarshal (M := M) urn data)) = false ->
  (GetSubject (M := M) io urn w).2 = Unmarshal urn data /\
  disk (GetSubject (M := M) io urn w).1 = disk w /\
  metricDataLRUHit (metrics (GetSubject (M := M) io urn w).1)
  = metricDataLRUHit (metrics w) + 1 /\
  metricDataLRUMiss (metrics (GetSubject (M := M) io urn w).1)
  = metricDataLRUMiss (metrics w).
Proof.
  intros Hhit Hdec. unfold GetSubject.
  destruct (cache_GetSubject_result (M := M) urn (cache (self w))) as [Hr Hc].
  destruct (cache_GetSubject urn (cache (self w))) as [c1 r1].
  simpl in Hr, Hc. subst c1 r1. rewrite Hhit, Hdec. simpl. done.
Qed.

(** X11.  When the path is not cached and the backend fails to read the
    file, [GetBuffer] and [GetSubject] return the backend's error: no
    miss is counted, the metrics and the files are as before, and the
    path stays absent from the data cache. *)
Theorem read_failure_on_miss_is_returned
    (e : error) (urn : DSPathSpec) (w : World) :
  data_peek urn (data_cache (cache (self w))) = None ->
  ((GetBuffer (IoFail e) urn w).2 = Err e /\
   metrics (GetBuffer (IoFail e) urn w).1 = metrics w /\
   disk (GetBuffer (IoFail e) urn w).1 = disk w /\
   data_peek urn (data_cache (cache (self (GetBuffer (IoFail e) urn w).1)))
   = None) /\
  ((GetSubject (M := M) (IoFail e) urn w).2 = Err e /\
   metrics (GetSubject (M := M) (IoFail e) urn w).1 = metrics w /\
   disk (GetSubject (M := M) (IoFail e) urn w).1 = disk w /\
   data_peek urn
     (data_cache (cache (self (GetSubject (M := M) (IoFail e) urn w).1)))
   = None).
Proof.
  intros Hmiss.
  destruct (cache_GetBuffer_cache urn (cache (self w))) as (Hpeek & _).
  split.
  - unfold GetBuffer.
    pose proof (cache_GetBuffer_result urn (cache (self w))) as Hr.
    destruct (cache_GetBuffer urn (cache (self w))) as [c1 r1].
    simpl in Hr, Hpeek. subst r1. rewrite Hmiss. simpl.
    repeat split; try done. by rewrite Hpeek.
  - unfold GetSubject.
    destruct (cache_GetSubject_result (M := M) urn (cache (self w)))
      as [Hr Hc].
    destruct (cache_GetSubject urn (cache (self w))) as [c1 r1].
    simpl in Hr, Hc. subst c1 r1. rewrite Hmiss. simpl.
    repeat split; try done. by rewrite Hpeek.
Qed.

End reads.

Lemma GetSubject_hit_returns_decoding_witness :
  (GetSubject (M := Blob) IoOk sample_urn cached_world).2
  = Unmarshal sample_urn sample_payload /\
  disk (GetSubject (M := Blob) IoOk sample_urn cached_world).1
  = disk cached_world /\
  metricDataLRUHit (metrics (GetSubject (M := Blob) IoOk sample_urn
                                        cached_world).1)
  = metricDataLRUHit (metrics cached_world) + 1 /\
  metricDataLRUMiss (metrics (GetSubject (M := Blob) IoOk sample_urn
                                         cached_world).1)
  = metricDataLRUMiss (metrics cached_world).
Proof.
  apply (GetSubject_hit_returns_decoding (M := Blob) IoOk sample_urn
                                         sample_payload cached_world);
    vm_compute; reflexivity.
Defined.

Lemma read_failure_on_miss_is_returned_witness :
  ((GetBuffer (IoFail (ErrIO "disk gone")) sample_urn sample_world).2
   = Err (ErrIO "disk gone") /\
   metrics (GetBuffer (IoFail (ErrIO "disk gone")) sample_urn sample_world).1
   = metrics sample_world /\
   disk (GetBuffer (IoFail (ErrIO "disk gone")) sample_urn sample_world).1
   = disk sample_world /\
   data_peek sample_urn
     (data_cache (cache (self (GetBuffer (IoFail (ErrIO "disk gone"))
                                         sample_urn sample_world).1)))
   = None) /\
  ((GetSubject (M := Blob) (IoFail (ErrIO "disk gone")) sample_urn
               sample_world).2 = Err (ErrIO "disk gone") /\
   metrics (GetSubject (M := Blob) (IoFail (ErrIO "disk gone")) sample_urn
                       sample_world).1 = metrics sample_world /\
   disk (GetSubject (M := Blob) (IoFail (ErrIO "disk gone")) sample_urn
                    sample_world).1 = disk sample_world /\
   data_peek sample_urn
     (data_cache (cache (self (GetSubject (M := Blob)
                                 (IoFail (ErrIO "disk gone")) sample_urn
                                 sample_world).1)))
   = None).
Proof.
  apply (read_failure_on_miss_is_returned (M := Blob) (ErrIO "disk gone")
                                          sample_urn sample_world).
  vm_compute. reflexivity.
Defined.

(** ** Writes, then reads *)

Lemma SetBuffer_ok config_obj urn data completion w :
  SetBuffer config_obj urn data completion w =
  ((wg_new (with_cache (cache_SetData urn data (cache (self w))).1 w)).1,
   AtSelect (mkMutation MUTATION_OP_SET_SUBJECT urn (next_wg w) data completion)
            (TailReturn None) (wait_if_negative_buffer config_obj None)).
Proof.
  unfold SetBuffer.
  pose proof (cache_SetData_nil urn data (cache (self w))) as Hnil.
  destruct (cache_SetData urn data (cache (self w))) as [c err].
  simpl in Hnil. subst err. reflexivity.
Qed.

Lemma cache_DeleteSubject_ok urn c :
  data_cache (cache_DeleteSubject urn c).1
  = DataLRUCache_Remove urn (data_cache c) /\
  (cache_DeleteSubject urn c).2 = None.
Proof.
  unfold cache_DeleteSubject.
  by destruct (DirectoryLRUCache_Get _ _) as [[md|] dirs].
Qed.

Lemma DeleteSubject_ok config_obj urn w :
  DeleteSubject config_obj urn w =
  ((wg_new (with_cache (cache_DeleteSubject urn (cache (self w))).1 w)).1,
   AtSelect (mkMutation MUTATION_OP_DEL_SUBJECT urn (next_wg w) [] None)
            (wait_if_negative_buffer config_obj None)
            (wait_if_negative_buffer config_obj None)).
Proof.
  unfold DeleteSubject.
  destruct (cache_DeleteSubject_ok urn (cache (self w))) as [_ Hnil].
  destruct (cache_DeleteSubject urn (cache (self w))) as [c err].
  simpl in Hnil. subst err. reflexivity.
Qed.

Lemma GetBuffer_cached io urn data w :
  data_peek urn (data_cache (cache (self w))) = Some data ->
  (GetBuffer io urn w).2 = Ok data.
Proof.
  intros Hhit. unfold GetBuffer.
  pose proof (cache_GetBuffer_result urn (cache (self w))) as Hr.
  destruct (cache_GetBuffer urn (cache (self w))) as [c1 r1].
  simpl in Hr. subst r1. by rewrite Hhit.
Qed.

(** X12.  [SetBuffer] stores the bytes it is given in the data cache at
    once and stands in its [select] with a SET mutation carrying those
    bytes and the caller's completion; no file is written and nothing
    is queued until the channel accepts the mutation.  On the
    [ctx.Done()] branch it returns nil and leaves the world alone. *)
Theorem SetBuffer_caches_then_queues
    (config_obj : Config) (urn : DSPathSpec) (data : bytes)
    (completion : option nat) (w : World) :
  let mutation :=
    mkMutation MUTATION_OP_SET_SUBJECT urn (next_wg w) data completion in
  cache (self (SetBuffer config_obj urn data completion w).1)
  = (cache_SetData urn data (cache (self w))).1 /\
  disk (SetBuffer config_obj urn data completion w).1 = disk w /\
  writer (self (SetBuffer config_obj urn data completion w).1)
  = writer (self w) /\
  wg_counter (wg mutation) (SetBuffer config_obj urn data completion w).1 = 1 /\
  (forall w', Z.of_nat (length (writer (self w'))) < writer_cap (self w') ->
     exists t,
       select_send w' (SetBuffer config_obj urn data completion w).2
       = Some (with_writer (writer (self w') ++ [mutation]) w', t)) /\
  (forall w', ctx_done (self w') = true ->
     select_done w' (SetBuffer config_obj urn data completion w).2
     = Some (w', Returned None)).
Proof.
  intros mutation. rewrite SetBuffer_ok. simpl.
  repeat split; try done.
  - unfold wg_counter, counter_of. simpl. by rewrite lookup_insert_eq.
  - intros w' Hroom.
    destruct (Z.ltb_spec (Z.of_nat (length (writer (self w'))))
                         (writer_cap (self w'))); [|lia].
    eexists. reflexivity.
  - intros w' Hdone. by rewrite Hdone.
Qed.

(** X13.  A payload written with [SetBuffer] that fits the caps is read
    back by [GetBuffer] from the memcache at once, before any writer has
    run and whatever the backend would answer. *)
Theorem SetBuffer_then_GetBuffer_reads_back
    (config_obj : Config) (io : io_outcome) (urn : DSPathSpec) (data : bytes)
    (completion : option nat) (w : World) :
  Z.of_nat (length data) <= data_max_item_size (data_cache (cache (self w))) ->
  0 < LRU.max_size (data_lru (data_cache (cache (self w)))) ->
  (GetBuffer io urn (SetBuffer config_obj urn data completion w).1).2 = Ok data.
Proof.
  intros Hlen Hcap. apply GetBuffer_cached. rewrite SetBuffer_ok. simpl.
  by apply data_peek_SetData.
Qed.

Lemma SetBuffer_then_GetBuffer_reads_back_witness :
  (GetBuffer (IoFail (ErrIO "disk gone")) sample_urn
             (SetBuffer unset_config sample_urn sample_payload None
                        sample_world).1).2
  = Ok sample_payload.
Proof.
  apply (SetBuffer_then_GetBuffer_reads_back
           unset_config (IoFail (ErrIO "disk gone")) sample_urn sample_payload
           None sample_world); vm_compute; [discriminate|reflexivity].
Defined.

Section round_trip.
Context {M : Type} `{ProtoMessage M}.

Lemma GetSubject_cached io urn data (message : M) w :
  data_peek urn (data_cache (cache (self w))) = Some data ->
  Unmarshal urn data = Ok message ->
  (GetSubject (M := M) io urn w).2 = Ok message.
Proof.
  intros Hhit Hdec. unfold GetSubject.
  destruct (cache_GetSubject_result (M := M) urn (cache (self w))) as [Hr Hc].
  destruct (cache_GetSubject urn (cache (self w))) as [c1 r1].
  simpl in Hr, Hc. subst c1 r1. rewrite Hhit, Hdec. done.
Qed.

(** X14.  A message written with [SetSubjectWithCompletion] or with
    [SetSubject] whose encoding fits the caps is read back by
    [GetSubject] as the decoding of its encoding, from the memcache:
    for the first before any writer has run, for the second even when
    the backend refused the write. *)
Theorem SetSubject_then_GetSubject_round_trip
    (config_obj : Config) (io io' : io_outcome) (urn : DSPathSpec)
    (message decoded : M) (completion : option nat) (serialized : bytes)
    (w : World) :
  Marshal urn message = Ok serialized ->
  Unmarshal urn serialized = Ok decoded ->
  Z.of_nat (length serialized)
    <= data_max_item_size (data_cache (cache (self w))) ->
  0 < LRU.max_size (data_lru (data_cache (cache (self w)))) ->
  (GetSubject (M := M) io urn
     (SetSubjectWithCompletion config_obj urn message completion w).1).2
  = Ok decoded /\
  (GetSubject (M := M) io urn (SetSubject io' urn message w).1).2 = Ok decoded.
Proof.
  intros Hm Hd Hlen Hcap. split.
  - apply (GetSubject_cached _ _ serialized); [|done].
    rewrite (SetSubjectWithCompletion_ok _ _ _ _ _ _ Hm). simpl.
    by apply data_peek_SetData.
  - apply (GetSubject_cached _ _ serialized); [|done].
    rewrite (SetSubject_ok _ _ _ _ _ Hm). simpl.
    by apply data_peek_SetData.
Qed.

End round_trip.

Lemma SetSubject_then_GetSubject_round_trip_witness :
  (GetSubject (M := Blob) IoOk sample_urn
     (SetSubjectWithCompletion unset_config sample_urn (BlobOf sample_payload)
                               None sample_world).1).2
  = Ok (BlobOf sample_payload) /\
  (GetSubject (M := Blob) IoOk sample_urn
     (SetSubject (IoFail (ErrIO "disk full")) sample_urn
                 (BlobOf sample_payload) sample_world).1).2
  = Ok (BlobOf sample_payload).
Proof.
  apply (SetSubject_then_GetSubject_round_trip
           (M := Blob) unset_config IoOk (IoFail (ErrIO "disk full"))
           sample_urn (BlobOf sample_payload) (BlobOf sample_payload) None
           sample_payload sample_world);
    vm_compute; first [reflexivity|discriminate].
Defined.

(** ** Deletes, then reads *)

Lemma data_peek_Remove urn k dc :
  data_peek k (DataLRUCache_Remove urn dc)
  = if decide (urn = k) then None else data_peek k dc.
Proof. apply Peek_Remove. Qed.

(** X15.  [DeleteSubject] removes the path from the data cache at once,
    leaves every other cached path and the files alone, and stands in
    its [select] with a DELETE mutation for the path that carries no
    payload and no completion; the mutation is queued when the channel
    accepts it. *)
Theorem DeleteSubject_removes_then_queues
    (config_obj : Config) (urn : DSPathSpec) (w : World) :
  let mutation := mkMutation MUTATION_OP_DEL_SUBJECT urn (next_wg w) [] None in
  data_peek urn (data_cache (cache (self (DeleteSubject config_obj urn w).1)))
  = None /\
  (forall other, other <> urn ->
     data_peek other
       (data_cache (cache (self (DeleteSubject config_obj urn w).1)))
     = data_peek other (data_cache (cache (self w)))) /\
  disk (DeleteSubject config_obj urn w).1 = disk w /\
  writer (self (DeleteSubject config_obj urn w).1) = writer (self w) /\
  (forall w', Z.of_nat (length (writer (self w'))) < writer_cap (self w') ->
     exists t,
       select_send w' (DeleteSubject config_obj urn w).2
       = Some (with_writer (writer (self w') ++ [mutation]) w', t)).
Proof.
  intros mutation. rewrite DeleteSubject_ok. simpl.
  destruct (cache_DeleteSubject_ok urn (cache (self w))) as [Hdata _].
  rewrite Hdata. repeat split; try done.
  - rewrite data_peek_Remove. by destruct (decide _).
  - intros other Hne. rewrite data_peek_Remove.
    destruct (decide _); [congruence|done].
  - intros w' Hroom.
    destruct (Z.ltb_spec (Z.of_nat (length (writer (self w'))))
                         (writer_cap (self w'))); [|lia].
    eexists. reflexivity.
Qed.

(** X16.  A delete is not visible to readers until a writer has removed
    the file.  Right after [DeleteSubject] the path is out of the data
    cache, so a [GetBuffer] falls through to the backend, finds the file
    still on disk, returns its bytes and, when they fit the caps, puts
    them back into the data cache. *)
Theorem deleted_subject_is_read_back_from_disk
    (config_obj : Config) (urn : DSPathSpec) (data : bytes) (w : World) :
  disk w !! urn = Some data ->
  Z.of_nat (length data) <= data_max_item_size (data_cache (cache (self w))) ->
  0 < LRU.max_size (data_lru (data_cache (cache (self w)))) ->
  data_peek urn (data_cache (cache (self (DeleteSubject config_obj urn w).1)))
  = None /\
  (GetBuffer IoOk urn (DeleteSubject config_obj urn w).1).2 = Ok data /\
  data_peek urn
    (data_cache (cache (self (GetBuffer IoOk urn
                                (DeleteSubject config_obj urn w).1).1)))
  = Some data.
Proof.
  intros Hfile Hlen Hcap. rewrite DeleteSubject_ok. simpl.
  destruct (cache_DeleteSubject_ok urn (cache (self w))) as [Hdata _].
  set (c0 := (cache_DeleteSubject urn (cache (self w))).1) in *.
  assert (data_peek urn (data_cache c0) = None) as Hmiss.
  { rewrite Hdata, data_peek_Remove. by destruct (decide _). }
  split; [done|].
  unfold GetBuffer. simpl.
  pose proof (cache_GetBuffer_result urn c0) as Hr.
  destruct (cache_GetBuffer_cache urn c0) as (Hpeek & Hitem & Hsize & _).
  destruct (cache_GetBuffer urn c0) as [c1 r1].
  simpl in Hr, Hpeek, Hitem, Hsize. subst r1. rewrite Hmiss. simpl.
  rewrite Hfile.
  pose proof (data_peek_SetData urn data c1) as Hset.
  rewrite Hitem, Hsize, Hdata in Hset. specialize (Hset Hlen Hcap).
  destruct (cache_SetData urn data c1) as [c2 e2]. simpl in *. done.
Qed.

Lemma deleted_subject_is_read_back_from_disk_witness :
  data_peek sample_urn
    (data_cache (cache (self (DeleteSubject unset_config sample_urn
                                            stocked_world).1)))
  = None /\
  (GetBuffer IoOk sample_urn
             (DeleteSubject unset_config sample_urn stocked_world).1).2
  = Ok sample_payload /\
  data_peek sample_urn
    (data_cache (cache (self (GetBuffer IoOk sample_urn
                                (DeleteSubject unset_config sample_urn
                                               stocked_world).1).1)))
  = Some sample_payload.
Proof.
  apply (deleted_subject_is_read_back_from_disk
           unset_config sample_urn sample_payload stocked_world);
    vm_compute; first [reflexivity|discriminate].
Defined.

(** X17.  When a writer takes a DELETE mutation off the channel and the
    backend succeeds, the file is gone afterwards and the data cache is
    as the writer found it.  So a [GetBuffer] of the path after the
    writer's turn answers not-found if the path is not in the data cache
    at that turn, which is how [DeleteSubject] left it; and if a read
    has put the bytes back in between, [GetBuffer] keeps returning them,
    whatever the backend answers, although the file no longer exists. *)
Theorem delete_is_visible_unless_recached
    (mutation : Mutation) (w w' : World) :
  op mutation = MUTATION_OP_DEL_SUBJECT ->
  writer_turn IoOk w = Some (mutation, w') ->
  disk w' !! urn mutation = None /\
  data_cache (cache (self w')) = data_cache (cache (self w)) /\
  (data_peek (urn mutation) (data_cache (cache (self w))) = None ->
   (GetBuffer IoOk (urn mutation) w').2 = Err ErrNotExist) /\
  (forall data io,
     data_peek (urn mutation) (data_cache (cache (self w))) = Some data ->
     (GetBuffer io (urn mutation) w').2 = Ok data).
Proof.
  intros Hop Hturn. unfold writer_turn in Hturn.
  destruct (writer (self w)) as [|m0 rest]; [discriminate|].
  injection Hturn as <- <-.
  destruct (process_mutation_channel IoOk m0 (with_writer rest w))
    as (_ & _ & _ & _ & _ & Hdata).
  change (data_cache (cache (self (with_writer rest w))))
    with (data_cache (cache (self w))) in Hdata.
  assert (disk (process_mutation IoOk m0 (with_writer rest w)) !! urn m0 = None)
    as Hgone.
  { unfold process_mutation. rewrite Hop. simpl. apply lookup_delete_eq. }
  split; [done|]. split; [done|]. split.
  - intros Hmiss. unfold GetBuffer.
    pose proof (cache_GetBuffer_result (urn m0)
                  (cache (self (process_mutation IoOk m0 (with_writer rest w)))))
      as Hr.
    destruct (cache_GetBuffer (urn m0) _) as [c1 r1]. cbn [snd] in Hr.
    subst r1. rewrite Hdata, Hmiss. cbn [fst snd with_cache with_self disk self].
    unfold readContentFromFile. by rewrite Hgone.
  - intros data io Hhit. apply GetBuffer_cached. by rewrite Hdata.
Qed.

Lemma delete_is_visible_unless_recached_witness :
  disk deleted_recached_world !! sample_urn = None /\
  forall io, (GetBuffer io sample_urn deleted_recached_world).2
             = Ok sample_payload.
Proof.
  destruct (delete_is_visible_unless_recached
              delete_mutation recached_delete_world deleted_recached_world)
    as (Hgone & _ & _ & Hstale); [reflexivity|vm_compute; reflexivity|].
  split; [exact Hgone|].
  intros io. apply (Hstale sample_payload io). vm_compute. reflexivity.
Defined.

(** ** After the [select] *)

Section after_select.
Context {M : Type} `{ProtoMessage M}.

(** X18.  With a mutation buffer that is not negative, the three
    submitting calls return as soon as the channel has accepted their
    mutation: the send branch queues the mutation, touches no file and
    the call returns nil without waiting for a writer. *)
Theorem write_behind_returns_without_waiting
    (config_obj : Config) (ds : DatastoreConfig) (urn : DSPathSpec)
    (message : M) (serialized data : bytes) (completion : option nat)
    (w w' : World) :
  Datastore config_obj = Some ds ->
  0 <= MemcacheWriteMutationBuffer ds ->
  Marshal urn message = Ok serialized ->
  Z.of_nat (length (writer (self w'))) < writer_cap (self w') ->
  select_send w' (SetSubjectWithCompletion config_obj urn message completion
                                           w).2
  = Some (with_writer
            (writer (self w')
               ++ [mkMutation MUTATION_OP_SET_SUBJECT urn (next_wg w)
                              serialized completion]) w',
          Returned None) /\
  select_send w' (SetBuffer config_obj urn data completion w).2
  = Some (with_writer
            (writer (self w')
               ++ [mkMutation MUTATION_OP_SET_SUBJECT urn (next_wg w) data
                              completion]) w',
          Returned None) /\
  select_send w' (DeleteSubject config_obj urn w).2
  = Some (with_writer
            (writer (self w')
               ++ [mkMutation MUTATION_OP_DEL_SUBJECT urn (next_wg w) []
                              None]) w',
          Returned None).
Proof.
  intros Hds Hpos Hm Hroom.
  rewrite (SetSubjectWithCompletion_ok _ _ _ _ _ _ Hm), SetBuffer_ok,
    DeleteSubject_ok.
  unfold wait_if_negative_buffer. rewrite Hds. simpl.
  destruct (Z.ltb_spec (MemcacheWriteMutationBuffer ds) 0); [lia|].
  destruct (Z.ltb_spec (Z.of_nat (length (writer (self w'))))
                       (writer_cap (self w'))); [|lia].
  done.
Qed.

(** X19.  A call made with a configuration that has no datastore section
    panics once the channel has accepted its mutation, which stays
    queued: the buffer size is read through the nil pointer.  On the
    [ctx.Done()] branch [SetSubjectWithCompletion] and [SetBuffer]
    return nil before that read, while [DeleteSubject] falls through to
    it and panics too. *)
Theorem nil_datastore_submission_panics_once_sent
    (config_obj : Config) (urn : DSPathSpec) (message : M)
    (serialized data : bytes) (completion : option nat) (w w' : World) :
  Datastore config_obj = None ->
  Marshal urn message = Ok serialized ->
  (Z.of_nat (length (writer (self w'))) < writer_cap (self w') ->
   select_send w' (SetSubjectWithCompletion config_obj urn message completion
                                            w).2
   = Some (with_writer
             (writer (self w')
                ++ [mkMutation MUTATION_OP_SET_SUBJECT urn (next_wg w)
                               serialized completion]) w',
           Panicked) /\
   select_send w' (SetBuffer config_obj urn data completion w).2
   = Some (with_writer
             (writer (self w')
                ++ [mkMutation MUTATION_OP_SET_SUBJECT urn (next_wg w) data
                               completion]) w',
           Panicked) /\
   select_send w' (DeleteSubject config_obj urn w).2
   = Some (with_writer
             (writer (self w')
                ++ [mkMutation MUTATION_OP_DEL_SUBJECT urn (next_wg w) []
                               None]) w',
           Panicked)) /\
  (ctx_done (self w') = true ->
   select_done w' (SetSubjectWithCompletion config_obj urn message completion
                                            w).2
   = Some (w', Returned None) /\
   select_done w' (SetBuffer config_obj urn data completion w).2
   = Some (w', Returned None) /\
   select_done w' (DeleteSubject config_obj urn w).2 = Some (w', Panicked)).
Proof.
  intros Hnil Hm.
  rewrite (SetSubjectWithCompletion_ok _ _ _ _ _ _ Hm), SetBuffer_ok,
    DeleteSubject_ok.
  unfold wait_if_negative_buffer. rewrite Hnil. simpl. split.
  - intros Hroom.
    destruct (Z.ltb_spec (Z.of_nat (length (writer (self w'))))
                         (writer_cap (self w'))); [|lia].
    done.
  - intros Hdone. by rewrite Hdone.
Qed.

End after_select.

Lemma write_behind_returns_without_waiting_witness :
  select_send sample_world
    (SetSubjectWithCompletion unset_config sample_urn (BlobOf sample_payload)
                              None sample_world).2
  = Some (with_writer
            (writer (self sample_world)
               ++ [mkMutation MUTATION_OP_SET_SUBJECT sample_urn
                              (next_wg sample_world) sample_payload None])
            sample_world,
          Returned None) /\
  select_send sample_world
    (SetBuffer unset_config sample_urn sample_payload None sample_world).2
  = Some (with_writer
            (writer (self sample_world)
               ++ [mkMutation MUTATION_OP_SET_SUBJECT sample_urn
                              (next_wg sample_world) sample_payload None])
            sample_world,
          Returned None) /\
  select_send sample_world (DeleteSubject unset_config sample_urn sample_world).2
  = Some (with_writer
            (writer (self sample_world)
               ++ [mkMutation MUTATION_OP_DEL_SUBJECT sample_urn
                              (next_wg sample_world) [] None])
            sample_world,
          Returned None).
Proof.
  apply (write_behind_returns_without_waiting
           (M := Blob) unset_config (mkDatastoreConfig 0 0 0 0 0 0) sample_urn
           (BlobOf sample_payload) sample_payload sample_payload None
           sample_world sample_world);
    vm_compute; first [reflexivity|discriminate].
Defined.

Lemma nil_datastore_submission_panics_once_sent_witness :
  (Z.of_nat (length (writer (self sample_world))) < writer_cap (self sample_world) ->
   select_send sample_world
     (SetSubjectWithCompletion nil_datastore_config sample_urn
                               (BlobOf sample_payload) None sample_world).2
   = Some (with_writer
             (writer (self sample_world)
                ++ [mkMutation MUTATION_OP_SET_SUBJECT sample_urn
                               (next_wg sample_world) sample_payload None])
             sample_world,
           Panicked) /\
   select_send sample_world
     (SetBuffer nil_datastore_config sample_urn sample_payload None
                sample_world).2
   = Some (with_writer
             (writer (self sample_world)
                ++ [mkMutation MUTATION_OP_SET_SUBJECT sample_urn
                               (next_wg sample_world) sample_payload None])
             sample_world,
           Panicked) /\
   select_send sample_world
     (DeleteSubject nil_datastore_config sample_urn sample_world).2
   = Some (with_writer
             (writer (self sample_world)
                ++ [mkMutation MUTATION_OP_DEL_SUBJECT sample_urn
                               (next_wg sample_world) [] None])
             sample_world,
           Panicked)) /\
  (ctx_done (self sample_world) = true ->
   select_done sample_world
     (SetSubjectWithCompletion nil_datastore_config sample_urn
                               (BlobOf sample_payload) None sample_world).2
   = Some (sample_world, Returned None) /\
   select_done sample_world
     (SetBuffer nil_datastore_config sample_urn sample_payload None
                sample_world).2
   = Some (sample_world, Returned None) /\
   select_done sample_world
     (DeleteSubject nil_datastore_config sample_urn sample_world).2
   = Some (sample_world, Panicked)).
Proof.
  apply (nil_datastore_submission_panics_once_sent
           (M := Blob) nil_datastore_config sample_urn (BlobOf sample_payload)
           sample_payload sample_payload None sample_world sample_world);
    reflexivity.
Defined.

(** ** Invalidation, again *)

(** X20.  [invalidateDirCache] only ever drops directory entries: it
    leaves the data cache, the channel, the files and the wait groups
    alone, no directory entry appears or changes its metadata, and
    running it a second time from the same path changes nothing
    more. *)
Theorem invalidateDirCache_only_drops_and_is_idempotent
    (urn : DSPathSpec) (w : World) (key : string) :
  data_cache (cache (self (invalidateDirCache urn w)))
  = data_cache (cache (self w)) /\
  writer (self (invalidateDirCache urn w)) = writer (self w) /\
  disk (invalidateDirCache urn w) = disk w /\
  waitgroups (invalidateDirCache urn w) = waitgroups w /\
  (dir_peek key (dir_cache (cache (self (invalidateDirCache urn w)))) = None \/
   dir_peek key (dir_cache (cache (self (invalidateDirCache urn w))))
   = dir_peek key (dir_cache (cache (self w)))) /\
  dir_peek key
    (dir_cache (cache (self (invalidateDirCache urn
                               (invalidateDirCache urn w)))))
  = dir_peek key (dir_cache (cache (self (invalidateDirCache urn w)))).
Proof.
  unfold invalidateDirCache. simpl. repeat split; try done.
  - rewrite dir_peek_invalidate_walk. unfold invalidated.
    destruct (dir_peek key (dir_cache (cache (self w)))) as [md|]; [|by left].
    destruct (IsFull md); [by right|].
    destruct (bool_decide _); [by left|by right].
  - rewrite !dir_peek_invalidate_walk. unfold invalidated.
    rewrite dir_peek_invalidate_walk. unfold invalidated.
    destruct (dir_peek key (dir_cache (cache (self w)))) as [md|]; [|done].
    destruct (IsFull md) eqn:Hfull; [by rewrite Hfull|].
    destruct (bool_decide _) eqn:Hwalk; [done|]. by rewrite Hfull.
Qed.

(** ** Runs of the whole store *)

Lemma select_send_room w t w' t' :
  select_send w t = Some (w', t') ->
  Z.of_nat (length (writer (self w'))) <= writer_cap (self w') /\
  writer_cap (self w') = writer_cap (self w).
Proof.
  destruct t as [m d k| | |]; simpl; try discriminate.
  destruct (Z.ltb_spec (Z.of_nat (length (writer (self w))))
                       (writer_cap (self w))); [|discriminate].
  intros [= <- <-]. simpl. rewrite length_app. simpl. split; [lia|done].
Qed.

Section store_runs.
Context {M : Type} `{ProtoMessage M}.
Implicit Types (s : System) (c : Call (M := M)) (l : label (M := M)).

Lemma start_call_capacity c w w' t :
  start_call c w = (w', t) -> writer_cap (self w') = writer_cap (self w).
Proof.
  destruct c as [cfg u msg comp|cfg u|cfg u dat comp|io u msg|io u|io u];
    simpl.
  - unfold SetSubjectWithCompletion.
    destruct (Marshal u msg) as [sc|e]; [|by intros [= <- <-]].
    destruct (cache_SetSubject u msg (cache (self w))) as [c0 err].
    by intros [= <- <-].
  - unfold DeleteSubject.
    destruct (cache_DeleteSubject u (cache (self w))) as [c0 err].
    by intros [= <- <-].
  - unfold SetBuffer.
    destruct (cache_SetData u dat (cache (self w))) as [c0 [e|]];
      by intros [= <- <-].
  - unfold SetSubject.
    destruct (Marshal u msg) as [sc|e]; [|by intros [= <- <-]].
    destruct (cache_SetData u sc (cache (self w))) as [c0 [e|]]; simpl;
      [by intros [= <- <-]|].
    destruct (writeContentToFile io u sc (disk w)) as [d err].
    by intros [= <- <-].
  - unfold GetSubject.
    destruct (cache_GetSubject u (cache (self w))) as [c0 r]. simpl.
    destruct (IsNotExist (result_err r)); [|by intros [= <- <-]].
    destruct (readContentFromFile io u true (disk w)) as [sc|e]; simpl;
      [|by intros [= <- <-]].
    destruct (cache_SetData u sc c0) as [c1 err1]. simpl.
    destruct (cache_GetSubject u c1) as [c2 r2]. by intros [= <- <-].
  - unfold GetBuffer.
    destruct (cache_GetBuffer u (cache (self w))) as [c0 [b|e]]; simpl;
      [by intros [= <- <-]|].
    destruct (readContentFromFile io u true (disk w)) as [sc|e']; simpl;
      [|by intros [= <- <-]].
    destruct (cache_SetData u sc c0) as [c1 err1]. by intros [= <- <-].
Qed.

(** X21.  In every run of a started store the channel holds no more
    mutations than the capacity it was made with. *)
Theorem channel_never_exceeds_capacity (s : System) :
  reachable (M := M) s ->
  Z.of_nat (length (writer (self (world s)))) <= writer_cap (self (world s)).
Proof.
  intros (config_obj & files & w & tr & Hboot & Hexec).
  induction Hexec as [|tr s1 l s2 Hexec IH Hstep].
  - unfold boot in Hboot.
    destruct (NewMemcacheFileDataStore config_obj) as [st|]; [|discriminate].
    apply StartWriter_inv in Hboot as (Hq & Hpos & _).
    simpl. rewrite Hq. simpl. lia.
  - destruct Hstep as [s c w0 t Hc|s i t w0 t' Hi Hsel|s i t w0 t' Hi Hsel
                      |s i t w0 t' Hi Hw|s io m w0 Hlive Hturn|s Hdone|s
                      |s dc dirs files' mt]; simpl; try done.
    + rewrite (start_call_capacity _ _ _ _ Hc).
      apply start_call_inv in Hc as [-> _]. done.
    + apply select_done_inv in Hsel as (-> & _). done.
    + by apply select_send_room in Hsel as [Hle _].
    + apply wait_return_inv in Hw as (-> & _). done.
    + unfold writer_turn in Hturn.
      destruct (writer (self (world s))) as [|m0 rest] eqn:Hq; [discriminate|].
      injection Hturn as <- <-.
      destruct (process_mutation_channel io m0 (with_writer rest (world s)))
        as (-> & -> & _).
      simpl in *. lia.
Qed.

(** X22.  In every run of a started store each wait group counts zero or
    one, so [wg.Done()] never drives a counter negative; the wait group
    of every queued mutation counts one, and no two queued mutations
    share a wait group. *)
Theorem wait_group_counters_stay_zero_or_one (s : System) :
  reachable (M := M) s ->
  (forall g, wg_counter g (world s) = 0 \/ wg_counter g (world s) = 1) /\
  (forall m, m ∈ writer (self (world s)) -> wg_counter (wg m) (world s) = 1) /\
  NoDup (wg <$> writer (self (world s))).
Proof.
  intros Hreach. pose proof (reachable_wg_inv _ Hreach) as Hinv.
  split; [|split].
  - destruct Hreach as (config_obj & files & w & tr & Hboot & Hexec).
    induction Hexec as [|tr s1 l s2 Hexec IH Hstep].
    + unfold boot in Hboot.
      destruct (NewMemcacheFileDataStore config_obj) as [st|]; [|discriminate].
      apply StartWriter_inv in Hboot as (_ & _ & _ & Hg & _).
      intros g. left. unfold wg_counter. simpl. by rewrite Hg.
    + assert (wg_inv s1) as Hinv1.
      { eapply wg_inv_exec; [by eapply wg_inv_boot|done]. }
      specialize (IH Hinv1). intros g.
      destruct Hstep as [s c w0 t Hc|s i t w0 t' Hi Hsel|s i t w0 t' Hi Hsel
                        |s i t w0 t' Hi Hw|s io m w0 Hlive Hturn|s Hdone|s
                        |s dc dirs files' mt]; simpl; try apply IH.
      * unfold wg_counter in *.
        apply start_call_inv in Hc as [_ [(-> & _)|(-> & _)]]; [apply IH|].
        rewrite counter_of_insert. destruct (decide _); [by right|apply IH].
      * apply select_done_inv in Hsel as (-> & _). apply IH.
      * apply select_send_inv in Hsel as (m & d & k & -> & -> & ->). apply IH.
      * apply wait_return_inv in Hw as (-> & _). apply IH.
      * apply writer_turn_inv in Hturn as (rest & Hq & _ & Hg & _).
        unfold wg_counter in *. rewrite Hg, counter_of_insert.
        destruct (decide _) as [<-|]; [|apply IH].
        left. destruct (inv_queue _ _ _ _ Hinv1 m) as [_ Hone].
        { rewrite Hq. by left. }
        unfold wg_counter, counter_of in *. lia.
  - intros m Hin. by destruct (inv_queue _ _ _ _ Hinv m Hin).
  - apply (inv_queue_nodup _ _ _ _ Hinv).
Qed.

(** X23.  A call that waits in [wg.Wait()] for its mutation is released
    by the writer that takes that mutation off the channel: right after
    the writer's turn the wait returns the call's error.  So in
    write-through mode a call can return as soon as a writer has
    processed its mutation. *)
Theorem writer_turn_releases_waiting_call
    (s : System) (i : nat) (mutation : Mutation) (err : option error)
    (io : io_outcome) (w' : World) :
  reachable (M := M) s ->
  threads s !! i = Some (AtWait mutation err) ->
  writer_turn io (world s) = Some (mutation, w') ->
  wait_return w' (AtWait mutation err) = Some (w', Returned err).
Proof.
  intros Hreach Hi Hturn. pose proof (reachable_wg_inv _ Hreach) as Hinv.
  apply writer_turn_inv in Hturn as (rest & Hq & _ & Hg & _).
  destruct (inv_queue _ _ _ _ Hinv mutation) as [_ Hone].
  { rewrite Hq. by left. }
  simpl. unfold wg_counter in *. rewrite Hg, counter_of_insert.
  destruct (decide (wg mutation = wg mutation)); [|done].
  rewrite Hone. simpl. done.
Qed.

End store_runs.

(** The sample write-through call, sent and waiting, is a state the
    store can get to. *)
Lemma wt_sent_reachable : reachable (M := Blob) wt_sent.
Proof.
  exists write_through_config, ∅, wt_world,
         [LCall wt_call; LSelectSend 0%nat].
  split; [vm_compute; reflexivity|].
  apply (exec_snoc (mkSystem wt_world []) [LCall wt_call] wt_started
                   (LSelectSend 0%nat) wt_sent).
  - apply (exec_snoc (mkSystem wt_world []) [] (mkSystem wt_world [])
                     (LCall wt_call) wt_started); [apply exec_nil|].
    apply (step_call (mkSystem wt_world []) wt_call
                     (start_call wt_call wt_world).1
                     (start_call wt_call wt_world).2).
    vm_compute. reflexivity.
  - apply (step_select_send wt_started 0%nat
             (AtSelect wt_mutation (TailReturn None) (TailWait None))
             (world wt_sent) (AtWait wt_mutation None));
      vm_compute; reflexivity.
Defined.

Lemma channel_never_exceeds_capacity_witness :
  Z.of_nat (length (writer (self (world wt_sent))))
  <= writer_cap (self (world wt_sent)).
Proof.
  apply (channel_never_exceeds_capacity (M := Blob) wt_sent).
  exact wt_sent_reachable.
Defined.

Lemma wait_group_counters_stay_zero_or_one_witness :
  (forall g, wg_counter g (world wt_sent) = 0
             \/ wg_counter g (world wt_sent) = 1) /\
  (forall m, m ∈ writer (self (world wt_sent)) ->
             wg_counter (wg m) (world wt_sent) = 1) /\
  NoDup (wg <$> writer (self (world wt_sent))).
Proof.
  apply (wait_group_counters_stay_zero_or_one (M := Blob) wt_sent).
  exact wt_sent_reachable.
Defined.

Lemma writer_turn_releases_waiting_call_witness :
  wait_return (world wt_written) (AtWait wt_mutation None)
  = Some (world wt_written, Returned None).
Proof.
  apply (writer_turn_releases_waiting_call
           (M := Blob) wt_sent 0%nat wt_mutation None IoOk (world wt_written)).
  - exact wt_sent_reachable.
  - vm_compute. reflexivity.
  - vm_compute. reflexivity.
Defined.

(** ** Misses and persistence *)

(** X24.  [GetBuffer] on a path that is not cached but is on disk reads
    the file, counts a miss and no hit, and returns the bytes, whatever
    their size; the files are as before.  The bytes are cached when they
    fit the caps, and are not when they exceed the per-item cap. *)
Theorem GetBuffer_miss_reads_file
    (urn : DSPathSpec) (data : bytes) (w : World) :
  data_peek urn (data_cache (cache (self w))) = None ->
  disk w !! urn = Some data ->
  (GetBuffer IoOk urn w).2 = Ok data /\
  metricDataLRUMiss (metrics (GetBuffer IoOk urn w).1)
  = metricDataLRUMiss (metrics w) + 1 /\
  metricDataLRUHit (metrics (GetBuffer IoOk urn w).1)
  = metricDataLRUHit (metrics w) /\
  disk (GetBuffer IoOk urn w).1 = disk w /\
  (Z.of_nat (length data) <= data_max_item_size (data_cache (cache (self w))) ->
   0 < LRU.max_size (data_lru (data_cache (cache (self w)))) ->
   data_peek urn (data_cache (cache (self (GetBuffer IoOk urn w).1)))
   = Some data) /\
  (data_max_item_size (data_cache (cache (self w))) < Z.of_nat (length data) ->
   data_peek urn (data_cache (cache (self (GetBuffer IoOk urn w).1))) = None).
Proof.
  intros Hmiss Hfile. unfold GetBuffer.
  pose proof (cache_GetBuffer_result urn (cache (self w))) as Hr.
  destruct (cache_GetBuffer_cache urn (cache (self w)))
    as (Hpeek & Hitem & Hsize & _).
  destruct (cache_GetBuffer urn (cache (self w))) as [c1 r1].
  simpl in Hr, Hpeek, Hitem, Hsize. subst r1. rewrite Hmiss. simpl.
  rewrite Hfile.
  pose proof (data_peek_SetData urn data c1) as Hset.
  pose proof (data_cache_SetData_above_cap urn data c1) as Hskip.
  rewrite Hitem in Hset, Hskip. rewrite Hsize in Hset.
  destruct (cache_SetData urn data c1) as [c2 e2]. simpl in *.
  repeat split; try done.
  intros Hbig. by rewrite (Hskip Hbig), Hpeek.
Qed.

Lemma GetBuffer_miss_reads_file_witness :
  (GetBuffer IoOk sample_urn stocked_world).2 = Ok sample_payload /\
  metricDataLRUMiss (metrics (GetBuffer IoOk sample_urn stocked_world).1)
  = metricDataLRUMiss (metrics stocked_world) + 1 /\
  metricDataLRUHit (metrics (GetBuffer IoOk sample_urn stocked_world).1)
  = metricDataLRUHit (metrics stocked_world) /\
  disk (GetBuffer IoOk sample_urn stocked_world).1 = disk stocked_world /\
  (Z.of_nat (length sample_payload)
     <= data_max_item_size (data_cache (cache (self stocked_world))) ->
   0 < LRU.max_size (data_lru (data_cache (cache (self stocked_world)))) ->
   data_peek sample_urn
     (data_cache (cache (self (GetBuffer IoOk sample_urn stocked_world).1)))
   = Some sample_payload) /\
  (data_max_item_size (data_cache (cache (self stocked_world)))
     < Z.of_nat (length sample_payload) ->
   data_peek sample_urn
     (data_cache (cache (self (GetBuffer IoOk sample_urn stocked_world).1)))
   = None).
Proof.
  apply (GetBuffer_miss_reads_file sample_urn sample_payload stocked_world);
    vm_compute; reflexivity.
Defined.

Section misses.
Context {M : Type} `{ProtoMessage M}.

(** X25.  [GetSubject] on a path that is not cached but is on disk, with
    bytes that fit the caps, reads the file, counts a miss, caches the
    bytes and returns what decoding them gives; the files are as
    before. *)
Theorem GetSubject_miss_reads_file_and_decodes
    (urn : DSPathSpec) (data : bytes) (w : World) :
  data_peek urn (data_cache (cache (self w))) = None ->
  disk w !! urn = Some data ->
  Z.of_nat (length data) <= data_max_item_size (data_cache (cache (self w))) ->
  0 < LRU.max_size (data_lru (data_cache (cache (self w)))) ->
  (GetSubject (M := M) IoOk urn w).2 = Unmarshal urn data /\
  metricDataLRUMiss (metrics (GetSubject (M := M) IoOk urn w).1)
  = metricDataLRUMiss (metrics w) + 1 /\
  data_peek urn (data_cache (cache (self (GetSubject (M := M) IoOk urn w).1)))
  = Some data /\
  disk (GetSubject (M := M) IoOk urn w).1 = disk w.
Proof.
  intros Hmiss Hfile Hlen Hcap.
  destruct (GetSubject_miss_within_cap (M := M) urn data w Hmiss Hfile Hlen Hcap)
    as (Hr & Hm & Hp).
  repeat split; try done.
  unfold GetSubject.
  destruct (cache_GetSubject urn (cache (self w))) as [c1 r1]. simpl.
  destruct (IsNotExist (result_err r1)); [|done]. rewrite Hfile. simpl.
  destruct (cache_SetData urn data c1) as [c2 e2]. simpl.
  by destruct (cache_GetSubject urn c2) as [c3 r3].
Qed.

(** X26.  A path that is neither cached nor on disk is reported as
    not-found by [GetSubject] and by [GetBuffer] alike; no miss is
    counted and nothing is cached. *)
Theorem uncached_missing_file_is_not_found (urn : DSPathSpec) (w : World) :
  data_peek urn (data_cache (cache (self w))) = None ->
  disk w !! urn = None ->
  (GetSubject (M := M) IoOk urn w).2 = Err ErrNotExist /\
  (GetBuffer IoOk urn w).2 = Err ErrNotExist /\
  metrics (GetSubject (M := M) IoOk urn w).1 = metrics w /\
  metrics (GetBuffer IoOk urn w).1 = metrics w /\
  data_peek urn (data_cache (cache (self (GetSubject (M := M) IoOk urn w).1)))
  = None /\
  data_peek urn (data_cache (cache (self (GetBuffer IoOk urn w).1))) = None.
Proof.
  intros Hmiss Hfile.
  destruct (GetSubject_missing_file (M := M) urn w Hmiss Hfile) as [Hs Hb].
  destruct (cache_GetBuffer_cache urn (cache (self w))) as (Hpeek & _).
  split; [done|]. split; [done|].
  split; [|split; [|split]].
  - unfold GetSubject.
    destruct (cache_GetSubject_result (M := M) urn (cache (self w)))
      as [Hr Hc].
    destruct (cache_GetSubject urn (cache (self w))) as [c1 r1].
    simpl in Hr, Hc. subst c1 r1. rewrite Hmiss. simpl. by rewrite Hfile.
  - unfold GetBuffer.
    pose proof (cache_GetBuffer_result urn (cache (self w))) as Hr.
    destruct (cache_GetBuffer urn (cache (self w))) as [c1 r1].
    simpl in Hr. subst r1. rewrite Hmiss. simpl. by rewrite Hfile.
  - unfold GetSubject.
    destruct (cache_GetSubject_result (M := M) urn (cache (self w)))
      as [Hr Hc].
    destruct (cache_GetSubject urn (cache (self w))) as [c1 r1].
    simpl in Hr, Hc. subst c1 r1. rewrite Hmiss. simpl. rewrite Hfile.
    simpl. by rewrite Hpeek.
  - unfold GetBuffer.
    pose proof (cache_GetBuffer_result urn (cache (self w))) as Hr.
    destruct (cache_GetBuffer urn (cache (self w))) as [c1 r1].
    simpl in Hr, Hpeek. subst r1. rewrite Hmiss. simpl. rewrite Hfile.
    simpl. by rewrite Hpeek.
Qed.

End misses.

Lemma GetSubject_miss_reads_file_and_decodes_witness :
  (GetSubject (M := Blob) IoOk sample_urn stocked_world).2
  = Unmarshal sample_urn sample_payload /\
  metricDataLRUMiss (metrics (GetSubject (M := Blob) IoOk sample_urn
                                         stocked_world).1)
  = metricDataLRUMiss (metrics stocked_world) + 1 /\
  data_peek sample_urn
    (data_cache (cache (self (GetSubject (M := Blob) IoOk sample_urn
                                         stocked_world).1)))
  = Some sample_payload /\
  disk (GetSubject (M := Blob) IoOk sample_urn stocked_world).1
  = disk stocked_world.
Proof.
  apply (GetSubject_miss_reads_file_and_decodes
           (M := Blob) sample_urn sample_payload stocked_world);
    vm_compute; first [reflexivity|discriminate].
Defined.

Lemma uncached_missing_file_is_not_found_witness :
  (GetSubject (M := Blob) IoOk sample_urn sample_world).2 = Err ErrNotExist /\
  (GetBuffer IoOk sample_urn sample_world).2 = Err ErrNotExist /\
  metrics (GetSubject (M := Blob) IoOk sample_urn sample_world).1
  = metrics sample_world /\
  metrics (GetBuffer IoOk sample_urn sample_world).1 = metrics sample_world /\
  data_peek sample_urn
    (data_cache (cache (self (GetSubject (M := Blob) IoOk sample_urn
                                         sample_world).1)))
  = None /\
  data_peek sample_urn
    (data_cache (cache (self (GetBuffer IoOk sample_urn sample_world).1)))
  = None.
Proof.
  apply (uncached_missing_file_is_not_found (M := Blob) sample_urn
                                            sample_world);
    vm_compute; reflexivity.
Defined.

Lemma process_mutation_set_effects io mutation w :
  op mutation = MUTATION_OP_SET_SUBJECT ->
  disk (process_mutation io mutation w)
  = (writeContentToFile io (urn mutation) (data mutation) (disk w)).1 /\
  callbacks_run (process_mutation io mutation w) =
    match completion mutation with
    | Some f => f :: callbacks_run w
    | None => callbacks_run w
    end /\
  wg_counter (wg mutation) (process_mutation io mutation w)
  = wg_counter (wg mutation) w - 1.
Proof.
  intros Hop. unfold process_mutation. rewrite Hop.
  destruct io, (completion mutation); simpl;
    unfold wg_counter, counter_of; simpl; rewrite lookup_insert_eq; done.
Qed.

(** X27.  What [SetBuffer] submits is persisted by the next writer:
    on a store whose channel was empty and has room, once the channel
    has accepted the mutation and a writer has processed it with the
    backend succeeding, the file holds the bytes, whatever their size,
    the completion has run if there is one, the wait group counts zero
    and the channel is empty again. *)
Theorem SetBuffer_is_persisted_by_writer
    (config_obj : Config) (urn : DSPathSpec) (data : bytes)
    (completion : option nat) (w : World) :
  writer (self w) = [] ->
  0 < writer_cap (self w) ->
  exists w2 t2 mutation w3,
    select_send (SetBuffer config_obj urn data completion w).1
                (SetBuffer config_obj urn data completion w).2
    = Some (w2, t2) /\
    writer_turn IoOk w2 = Some (mutation, w3) /\
    disk w3 !! urn = Some data /\
    callbacks_run w3 =
      match completion with
      | Some f => f :: callbacks_run w
      | None => callbacks_run w
      end /\
    wg_counter (wg mutation) w3 = 0 /\
    writer (self w3) = [].
Proof.
  intros Hq Hcap. rewrite SetBuffer_ok.
  set (mutation := mkMutation MUTATION_OP_SET_SUBJECT urn (next_wg w) data
                              completion).
  set (w1 := (wg_new (with_cache (cache_SetData urn data (cache (self w))).1
                                 w)).1).
  assert (writer (self w1) = []) as Hq1 by done.
  assert (wg_counter (wg mutation) w1 = 1) as Hone.
  { unfold wg_counter, counter_of. simpl. by rewrite lookup_insert_eq. }
  exists (with_writer [mutation] w1), (resume mutation
                                         (wait_if_negative_buffer config_obj None)),
         mutation, (process_mutation IoOk mutation
                      (with_writer [] (with_writer [mutation] w1))).
  split.
  { cbn [fst snd select_send]. rewrite Hq1.
    change (Z.of_nat (length (@nil Mutation))) with 0.
    replace (writer_cap (self w1)) with (writer_cap (self w)) by done.
    destruct (Z.ltb_spec 0 (writer_cap (self w))); [done|lia]. }
  split; [done|].
  destruct (process_mutation_set_effects IoOk mutation
              (with_writer [] (with_writer [mutation] w1)) eq_refl)
    as (Hdisk & Hcb & Hwg).
  destruct (process_mutation_channel IoOk mutation
              (with_writer [] (with_writer [mutation] w1))) as (Hw & _).
  rewrite Hdisk, Hcb, Hwg, Hw. cbn [fst writeContentToFile].
  split; [apply lookup_insert_eq|]. split; [done|]. split; [|done].
  change (wg_counter (wg mutation) w1 - 1 = 0). lia.
Qed.

Lemma SetBuffer_is_persisted_by_writer_witness :
  exists w2 t2 mutation w3,
    select_send (SetBuffer unset_config sample_urn sample_payload (Some 7%nat)
                           sample_world).1
                (SetBuffer unset_config sample_urn sample_payload (Some 7%nat)
                           sample_world).2
    = Some (w2, t2) /\
    writer_turn IoOk w2 = Some (mutation, w3) /\
    disk w3 !! sample_urn = Some sample_payload /\
    callbacks_run w3 = 7%nat :: callbacks_run sample_world /\
    wg_counter (wg mutation) w3 = 0 /\
    writer (self w3) = [].
Proof.
  apply (SetBuffer_is_persisted_by_writer unset_config sample_urn
                                          sample_payload (Some 7%nat)
                                          sample_world);
    vm_compute; reflexivity.
Defined.
